(** * The chess board of [app1]: board store, move legality, request handler

    A shallow embedding of the Django application [chessboard/app1]:
    - [forms.py]  : [validate_square] and the two fields of [ChessForm];
    - [models.py] : the [Board] model, one row per (user, location), with
      [square_to_indices], [PIECE_MAPPING], [get_piece_at], [is_path_clear],
      [validate_move], [reset_game] and [move_piece];
    - [views.py]  : [chess_view] and [newGame].

    Conventions of the embedding.
    - A Python [str] is a [string]; a character is read as the code point
      of the same number (code points below 256).
    - A Python [int] is a [Z].
    - The table of [Board] rows is a finite map from (user, location) to
      value: [unique_together = ("user", "location")] allows one row per
      key.  A lookup [location=...] compares strings exactly, as the
      default database backend of a Django project does.
    - An exception is a value of [Exception]; code that may raise returns
      a [Result]; code that writes rows runs in the monad [DB], which
      threads the table and stops at the first exception, keeping the rows
      written so far (every statement is committed on its own). *)

From Stdlib Require Import ZArith String Ascii List Bool Lia DecimalString.
From stdpp Require Import base gmap strings list.
Import ListNotations.

#[local] Open Scope string_scope.
#[local] Open Scope Z_scope.

(** ** Python values and built-ins *)

Inductive Exception : Type :=
  | ValueError (msg : string)
  | ValidationError (msg : string)
  | IndexError
  | IntegrityError.

Inductive Result (A : Type) : Type :=
  | Return (a : A)
  | Raise (e : Exception).

Arguments Return {A} a.
Arguments Raise {A} e.

#[global] Instance Result_ret : MRet Result := @Return.
#[global] Instance Result_bind : MBind Result := λ A B f m,
  match m with
  | Return a => f a
  | Raise e => Raise e
  end.

Module Py.

Definition ord (c : ascii) : Z := Z.of_N (N_of_ascii c).

Definition chr (n : Z) : ascii := ascii_of_N (Z.to_N n).

(** [str(n)] for an integer [n]. *)
Definition str (n : Z) : string := NilZero.string_of_int (Z.to_int n).

(** [c.isspace()], which decides what [strip()] removes. *)
Definition isspace (c : ascii) : bool :=
  let n := ord c in
  ((9 <=? n) && (n <=? 13)) || ((28 <=? n) && (n <=? 32))
  || (n =? 133) || (n =? 160).

Fixpoint lstrip (s : string) : string :=
  match s with
  | EmptyString => EmptyString
  | String c t => if isspace c then lstrip t else s
  end.

Fixpoint rstrip (s : string) : string :=
  match s with
  | EmptyString => EmptyString
  | String c t =>
      match rstrip t with
      | EmptyString => if isspace c then EmptyString else String c EmptyString
      | t' => String c t'
      end
  end.

Definition strip (s : string) : string := rstrip (lstrip s).

(** [c.lower()] for a one-character string. *)
Definition lower (c : ascii) : ascii :=
  let n := ord c in
  if ((65 <=? n) && (n <=? 90))
     || ((192 <=? n) && (n <=? 222) && negb (n =? 215))
  then chr (n + 32) else c.

(** [c.isdigit()] for a one-character string: the decimal digits and the
    superscripts one, two and three. *)
Definition isdigit (c : ascii) : bool :=
  let n := ord c in
  ((48 <=? n) && (n <=? 57)) || (n =? 178) || (n =? 179) || (n =? 185).

(** [int(c)] for a one-character string: only a decimal digit converts. *)
Definition int (c : ascii) : Result Z :=
  let n := ord c in
  if (48 <=? n) && (n <=? 57) then Return (n - 48)
  else Raise (ValueError "invalid literal for int() with base 10").

(** [c in s] for a one-character string [c]. *)
Fixpoint contains (s : string) (c : ascii) : bool :=
  match s with
  | EmptyString => false
  | String c' t => Ascii.eqb c c' || contains t c
  end.

(** [a and b], where [b] is evaluated only when [a] is true. *)
Definition and_then (a : bool) (b : Result bool) : Result bool :=
  if a then b else Return false.

End Py.

(** ** forms.py *)

Definition validate_square (value : string) : Result unit :=
  match value with
  | String f (String rank EmptyString) =>
      let file := Py.lower f in
      if negb (Py.contains "abcdefgh" file)
      then Raise (ValidationError "File must be a letter from a to h.")
      else if negb (Py.isdigit rank)
      then Raise (ValidationError "Rank must be a number from 1 to 8.")
      else
        n ← Py.int rank;
        if negb ((1 <=? n) && (n <=? 8))
        then Raise (ValidationError "Rank must be a number from 1 to 8.")
        else Return tt
  | _ => Raise (ValidationError "Enter a square in the format e2.")
  end.

(** One field of [ChessForm]: a required [CharField] with [strip=True],
    length validators and [validate_square].  The value is stripped; an
    empty value fails as required without running the validators;
    otherwise every validator runs and each [ValidationError] is collected
    as a field error, while any other exception leaves the form.
    [validate_square] accepts only values of length two, so the length
    validators never add a failure of their own.
    [Return (Some v)] is the cleaned value, [Return None] a field with
    errors. *)
Definition clean_field (raw : string) : Result (option string) :=
  let value := Py.strip raw in
  if String.eqb value EmptyString then Return None
  else
    match validate_square value with
    | Return _ => Return (Some value)
    | Raise (ValidationError _) => Return None
    | Raise e => Raise e
    end.

(** [ChessForm(request.POST).is_valid()] with its [cleaned_data]: both
    fields are cleaned, [source] first. *)
Definition ChessForm (source destination : string)
  : Result (option (string * string)) :=
  s ← clean_field source;
  d ← clean_field destination;
  match s, d with
  | Some s, Some d => Return (Some (s, d))
  | _, _ => Return None
  end.

(** ** models.py *)

Inductive PieceType : Type := pawn | knight | bishop | rook | queen | king.

Inductive Color : Type := white | black.

#[global] Instance PieceType_eq_dec : EqDecision PieceType.
Proof. solve_decision. Defined.

#[global] Instance Color_eq_dec : EqDecision Color.
Proof. solve_decision. Defined.

(** The string a colour stands for in the source. *)
Definition color_name (c : Color) : string :=
  match c with white => "white" | black => "black" end.

(** A user is known by its primary key. *)
Definition User : Type := nat.

(** The rows of the [Board] table. *)
Abbreviation Table := (gmap (User * string) string).

(** *** The table as state *)

Definition DB (A : Type) : Type := Table → Table * Result A.

#[global] Instance DB_ret : MRet DB := λ A a db, (db, Return a).
#[global] Instance DB_bind : MBind DB := λ A B f m db,
  match m db with
  | (db', Return a) => f a db'
  | (db', Raise e) => (db', Raise e)
  end.

(** A computation that reads the table. *)
Definition query {A : Type} (f : Table → A) : DB A := λ db, (db, Return (f db)).

(** A computation that may raise and does not touch the table. *)
Definition lift {A : Type} (r : Result A) : DB A := λ db, (db, r).

Fixpoint for_each {A : Type} (l : list A) (body : A → DB unit) : DB unit :=
  match l with
  | [] => mret tt
  | x :: rest => _ ← body x; for_each rest body
  end.

(** [enumerate(l)]. *)
Definition enumerate {A : Type} (l : list A) : list (nat * A) :=
  zip (seq 0 (length l)) l.

(** The manager [Board.objects] and [save()], for the rows of one table. *)
Module objects.

(** [objects.get(user=user, location=location)]; [None] is [DoesNotExist]. *)
Definition get (user : User) (location : string) : DB (option string) :=
  query (λ db, db !! (user, location)).

(** [objects.filter(user=user)], as the rows it selects. *)
Definition filter_user (user : User) (db : Table) : Table :=
  filter (λ row, row.1.1 = user) db.

(** [objects.filter(user=user).count()]. *)
Definition count (user : User) : DB Z :=
  query (λ db, Z.of_nat (size (filter_user user db))).

(** [objects.filter(user=user).delete()]. *)
Definition delete_user (user : User) : DB unit :=
  λ db, (filter (λ row, row.1.1 ≠ user) db, Return tt).

(** [objects.filter(user=user, location=location).delete()]. *)
Definition delete (user : User) (location : string) : DB unit :=
  λ db, (base.delete (user, location) db, Return tt).

(** [objects.create(user=user, location=location, value=value)], and
    [Board(user=..., location=..., value=...).save()] of a new instance:
    an insert, refused when the key has a row. *)
Definition create (user : User) (location value : string) : DB unit :=
  λ db,
    match db !! (user, location) with
    | Some _ => (db, Raise IntegrityError)
    | None => (<[(user, location) := value]> db, Return tt)
    end.

(** [record.save()] of an instance that was read from the table, after
    [record.value = value]: the row is updated, or inserted again when it
    is gone. *)
Definition save (user : User) (location value : string) : DB unit :=
  λ db, (<[(user, location) := value]> db, Return tt).

End objects.

(** [piece.strip() == EmptyString or piece == "&nbsp;"], the test of
    [move_piece] and of [chess_view] for a source without a piece. *)
Definition no_piece (piece : string) : bool :=
  String.eqb (Py.strip piece) EmptyString || String.eqb piece "&nbsp;".

(** [list("abcdefgh")]. *)
Definition files : list ascii := list_ascii_of_string "abcdefgh".

(** The two nested loops that [reset_game] and [newGame] share: for every
    [rank, pieces] of the layout and every [i, piece] of
    [enumerate(pieces)], insert the row at [files[i]] followed by [rank]. *)
Definition create_rows (user : User) (initial_board : list (string * list string))
  : DB unit :=
  for_each initial_board (λ '(rank, pieces),
    for_each (enumerate pieces) (λ '(i, piece),
      location ← lift (match files !! i with
                       | Some file => Return (String file rank)
                       | None => Raise IndexError
                       end);
      objects.create user location piece)).

Module Board.

Definition square_to_indices (square : string) : Result (Z * Z) :=
  match square with
  | String f (String rank EmptyString) =>
      let file := Py.lower f in
      let col := Py.ord file - Py.ord "a" in
      match Py.int rank with
      | Raise (ValueError _) =>
          Raise (ValueError "Rank must be a number between 1 and 8.")
      | Raise e => Raise e
      | Return n =>
          let row := 8 - n in
          if negb ((0 <=? row) && (row <? 8) && ((0 <=? col) && (col <? 8)))
          then Raise (ValueError "Square out of bounds.")
          else Return (row, col)
      end
  | _ => Raise (ValueError "Square must be a 2-character string, e.g. e2.")
  end.

Definition PIECE_MAPPING : gmap string (PieceType * Color) :=
  list_to_map
    [ ("&#9817;", (pawn, white));
      ("&#9814;", (rook, white));
      ("&#9816;", (knight, white));
      ("&#9815;", (bishop, white));
      ("&#9813;", (queen, white));
      ("&#9812;", (king, white));
      ("&#9823;", (pawn, black));
      ("&#9820;", (rook, black));
      ("&#9822;", (knight, black));
      ("&#9821;", (bishop, black));
      ("&#9819;", (queen, black));
      ("&#9818;", (king, black)) ].

Definition get_piece_at (db : Table) (user : User) (square : string) : string :=
  match db !! (user, square) with
  | Some value => value
  | None => "&nbsp;"
  end.

(** Whether [v.strip()] is the empty string or [&nbsp;], the test the
    model applies to a value to decide that a square holds no piece. *)
Definition is_empty (v : string) : bool :=
  let s := Py.strip v in
  String.eqb s EmptyString || String.eqb s "&nbsp;".

(** [f"{chr(c + ord('a'))}{8 - r}"]: the location of row [r], column [c],
    as [is_path_clear] and the pawn's double move build it. *)
Definition location_of (r c : Z) : string :=
  String (Py.chr (c + Py.ord "a")) (Py.str (8 - r)).

(** The loop of [is_path_clear] over [range(1, steps)]: it returns
    [False] at the first step whose square holds a piece. *)
Fixpoint path_loop (db : Table) (user : User)
    (src_row src_col step_row step_col : Z) (steps : list Z) : bool :=
  match steps with
  | [] => true
  | step :: rest =>
      let r := src_row + step * step_row in
      let c := src_col + step * step_col in
      if negb (is_empty (get_piece_at db user (location_of r c)))
      then false
      else path_loop db user src_row src_col step_row step_col rest
  end.

Definition is_path_clear (db : Table) (user : User)
    (source destination : string) : Result bool :=
  '(src_row, src_col) ← square_to_indices source;
  '(dst_row, dst_col) ← square_to_indices destination;
  let delta_row := dst_row - src_row in
  let delta_col := dst_col - src_col in
  let steps := Z.max (Z.abs delta_row) (Z.abs delta_col) in
  if steps <=? 1 then Return true
  else
    let step_row := Z.div delta_row steps in
    let step_col := Z.div delta_col steps in
    Return (path_loop db user src_row src_col step_row step_col
              (seqZ 1 (steps - 1))).

(** The check on the destination that comes before the shape rules: the
    value there is not empty, is a key of [PIECE_MAPPING], and has the
    colour of the moving piece. *)
Definition captures_own (dest_piece : string) (piece_color : Color) : bool :=
  negb (is_empty dest_piece)
  && match PIECE_MAPPING !! dest_piece with
     | Some (_, dest_color) => bool_decide (dest_color = piece_color)
     | None => false
     end.

(** [direction] and [start_row] of the pawn branch. *)
Definition direction (piece_color : Color) : Z :=
  match piece_color with white => -1 | black => 1 end.

Definition start_row (piece_color : Color) : Z :=
  match piece_color with white => 6 | black => 1 end.

(** The pawn branch of [validate_move]. *)
Definition pawn_rule (db : Table) (user : User) (piece_color : Color)
    (src_row src_col d_row d_col : Z) (dest_piece : string) : bool * string :=
  if (d_col =? 0) && (d_row =? direction piece_color) then
    if is_empty dest_piece then (true, EmptyString)
    else (false, "Pawn cannot move forward into an occupied square.")
  else if (d_col =? 0) && (d_row =? 2 * direction piece_color)
          && (src_row =? start_row piece_color) then
    let intermediate_row := src_row + direction piece_color in
    let intermediate_square := location_of intermediate_row src_col in
    if is_empty (get_piece_at db user intermediate_square)
       && is_empty dest_piece
    then (true, EmptyString)
    else (false, "Path is not clear for pawn's double move.")
  else if (Z.abs d_col =? 1) && (d_row =? direction piece_color) then
    if negb (is_empty dest_piece) then (true, EmptyString)
    else (false, "Pawn diagonal move must capture an enemy piece.")
  else (false, "Illegal pawn move.").

(** The dispatch of [validate_move] on the kind of piece, from the pawn
    branch to the end of the function.  Every kind has a branch, so the
    closing [Move not recognized.] of the source is never reached. *)
Definition shape_rules (db : Table) (user : User) (source destination : string)
    (piece_type : PieceType) (piece_color : Color)
    (src_row src_col d_row d_col : Z) (dest_piece : string)
  : Result (bool * string) :=
  match piece_type with
  | pawn =>
      Return (pawn_rule db user piece_color src_row src_col d_row d_col dest_piece)
  | knight =>
      if bool_decide ((Z.abs d_row, Z.abs d_col) ∈ [(1, 2); (2, 1)])
      then Return (true, EmptyString)
      else Return (false, "Illegal knight move.")
  | bishop =>
      ok ← Py.and_then (Z.abs d_row =? Z.abs d_col)
             (is_path_clear db user source destination);
      if (ok : bool) then Return (true, EmptyString)
      else Return (false, "Illegal bishop move or path is blocked.")
  | rook =>
      ok ← Py.and_then ((d_row =? 0) || (d_col =? 0))
             (is_path_clear db user source destination);
      if (ok : bool) then Return (true, EmptyString)
      else Return (false, "Illegal rook move or path is blocked.")
  | queen =>
      ok ← Py.and_then ((Z.abs d_row =? Z.abs d_col)
                         || ((d_row =? 0) || (d_col =? 0)))
             (is_path_clear db user source destination);
      if (ok : bool) then Return (true, EmptyString)
      else Return (false, "Illegal queen move or path is blocked.")
  | king =>
      if Z.max (Z.abs d_row) (Z.abs d_col) =? 1
      then Return (true, EmptyString)
      else Return (false, "Illegal king move.")
  end.

Definition validate_move (db : Table) (user : User)
    (source destination piece : string) : Result (bool * string) :=
  match (src ← square_to_indices source;
         dst ← square_to_indices destination;
         mret (src, dst)) with
  | Raise (ValueError msg) => Return (false, msg)
  | Raise e => Raise e
  | Return ((src_row, src_col), (dst_row, dst_col)) =>
      match PIECE_MAPPING !! piece with
      | None => Return (false, "Unknown piece type.")
      | Some (piece_type, piece_color) =>
          let dest_piece := get_piece_at db user destination in
          if captures_own dest_piece piece_color
          then Return (false, "Cannot capture your own piece.")
          else
            let d_row := dst_row - src_row in
            let d_col := dst_col - src_col in
            shape_rules db user source destination piece_type piece_color
              src_row src_col d_row d_col dest_piece
      end
  end.

(** [initial_board] of [reset_game], in the order the dictionary is
    written. *)
Definition initial_board : list (string * list string) :=
  [ ("1", ["&#9820;"; "&#9822;"; "&#9821;"; "&#9819;";
           "&#9818;"; "&#9821;"; "&#9822;"; "&#9820;"]);
    ("2", replicate 8 "&#9823;");
    ("3", replicate 8 "&nbsp;");
    ("4", replicate 8 "&nbsp;");
    ("5", replicate 8 "&nbsp;");
    ("6", replicate 8 "&nbsp;");
    ("7", replicate 8 "&#9817;");
    ("8", ["&#9814;"; "&#9816;"; "&#9815;"; "&#9813;";
           "&#9812;"; "&#9815;"; "&#9816;"; "&#9814;"]) ].

Definition reset_game (user : User) : DB unit :=
  _ ← objects.delete_user user;
  create_rows user initial_board.

Definition move_piece (user : User) (source destination : string)
  : DB (bool * string) :=
  record_src ← objects.get user source;
  match record_src with
  | None => mret (false, "Source square not found.")
  | Some piece =>
      if no_piece piece then mret (false, "No piece at source.")
      else
        '(valid, message) ←
          (λ db, (db, validate_move db user source destination piece));
        if negb valid then mret (false, message)
        else
          _ ← objects.delete user destination;
          _ ← objects.save user source "&nbsp;";
          _ ← objects.create user destination piece;
          mret (true, "Move completed.")
  end.

End Board.

(** ** views.py *)

(** [initial_board] of [newGame], in the order the dictionary is written. *)
Definition initial_board : list (string * list string) :=
  [ ("8", ["&#9820;"; "&#9822;"; "&#9821;"; "&#9819;";
           "&#9818;"; "&#9821;"; "&#9822;"; "&#9820;"]);
    ("7", replicate 8 "&#9823;");
    ("6", replicate 8 "&nbsp;");
    ("5", replicate 8 "&nbsp;");
    ("4", replicate 8 "&nbsp;");
    ("3", replicate 8 "&nbsp;");
    ("2", replicate 8 "&#9817;");
    ("1", ["&#9814;"; "&#9816;"; "&#9815;"; "&#9813;";
           "&#9812;"; "&#9815;"; "&#9816;"; "&#9814;"]) ].

Definition newGame (user : User) : DB unit :=
  _ ← objects.delete_user user;
  create_rows user initial_board.

(** What a request carries: the method and, for a POST, whether the
    [new_game] or [reset] button is in the data, and the raw [source] and
    [destination] fields (empty when absent). *)
Record POSTData : Type := {
  post_new_game : bool;
  post_reset : bool;
  post_source : string;
  post_destination : string
}.

Inductive Request : Type :=
  | GET
  | POST (data : POSTData).

(** The entries of [page_data]: the grid, whether [chess_form] is the
    submitted form with its errors, the turn read when the request came
    in, and the error message when there is one. *)
Record PageData : Type := {
  board : list (list string);
  chess_form_errors : bool;
  page_turn : Color;
  error : option string
}.

(** The loop that builds the grid: ranks 8 down to 1, files a to h; a
    square without a row shows [&nbsp;]. *)
Definition board_rows (db : Table) (user : User) : list (list string) :=
  (λ rank : Z,
     (λ file, Board.get_piece_at db user (String file (Py.str rank)))
       <$> files)
    <$> [8; 7; 6; 5; 4; 3; 2; 1].

Definition other_color (turn : Color) : Color :=
  match turn with white => black | black => white end.

(** [chess_view], for the session's [turn] (absent in a new session) and
    a request; it returns the [turn] the session holds afterwards and the
    page data. *)
Definition chess_view (user : User) (session_turn : option Color)
    (request : Request) : DB (Color * PageData) :=
  let turn := default white session_turn in
  '(new_turn, err, form_errors) ←
    match request with
    | POST data =>
        if post_new_game data || post_reset data then
          _ ← newGame user;
          mret (white, None, false)
        else
          form ← lift (ChessForm (post_source data) (post_destination data));
          match form with
          | Some (source, destination) =>
              piece ← query (λ db, Board.get_piece_at db user source);
              if no_piece piece
              then mret (turn, Some "No piece at the source square.", false)
              else
                match Board.PIECE_MAPPING !! piece with
                | Some (_, piece_color) =>
                    if bool_decide (piece_color ≠ turn)
                    then mret (turn,
                               Some ("It is " +:+ color_name turn +:+ "'s turn."),
                               false)
                    else
                      '(success, message) ←
                        Board.move_piece user source destination;
                      if (success : bool)
                      then mret (other_color turn, None, false)
                      else mret (turn, Some message, false)
                | None => mret (turn, Some "Unrecognized piece.", false)
                end
          | None => mret (turn, None, true)
          end
    | GET =>
        n ← objects.count user;
        if n =? 0 then
          _ ← newGame user;
          mret (white, None, false)
        else mret (turn, None, false)
    end;
  rows ← query (λ db, board_rows db user);
  mret (new_turn,
        {| board := rows; chess_form_errors := form_errors;
           page_turn := turn; error := err |}).

(** ** The engine as the specification names it *)

(** A POST that carries a move and neither button. *)
Definition move_request (source destination : string) : Request :=
  POST {| post_new_game := false; post_reset := false;
          post_source := source; post_destination := destination |}.

(** [apply_move]: [chess_view] on a move request, in a session whose turn
    is set.  It returns the table afterwards and, unless an exception left
    the view, the turn the session holds afterwards and the page data. *)
Definition apply_move (user : User) (source destination : string)
    (turn : Color) : DB (Color * PageData) :=
  chess_view user (Some turn) (move_request source destination).

(** A move was accepted when the page carries no error message and the
    form was not sent back with errors. *)
Definition accepted (page_data : PageData) : bool :=
  negb (chess_form_errors page_data) && bool_decide (error page_data = None).

(** Whether an outcome of [apply_move] is an accepted move. *)
Definition accepts (outcome : Result (Color * PageData)) : bool :=
  match outcome with
  | Return (_, page_data) => accepted page_data
  | Raise _ => false
  end.

(** The table after [move_piece] has relocated [piece]. *)
Definition moved (db : Table) (user : User) (source destination piece : string)
  : Table :=
  <[(user, destination) := piece]>
    (<[(user, source) := "&nbsp;"]> (delete (user, destination) db)).

(** The page [chess_view] renders for a table, a turn and an outcome. *)
Definition page (db : Table) (user : User) (turn : Color)
    (err : option string) (form_errors : bool) : PageData :=
  {| board := board_rows db user; chess_form_errors := form_errors;
     page_turn := turn; error := err |}.

(** The message of the first check that fails, in the order of the
    specification: no piece on the source, the piece is not of the colour
    to move, the destination holds a piece of the mover's colour, the
    shape rule of the piece.  [None] when every check passes. *)
Definition first_failing_check (db : Table) (user : User)
    (source destination : string) (turn : Color) : option string :=
  let piece := Board.get_piece_at db user source in
  if no_piece piece then Some "No piece at the source square."
  else
    match Board.PIECE_MAPPING !! piece with
    | None => None
    | Some (piece_type, piece_color) =>
        if bool_decide (piece_color ≠ turn)
        then Some ("It is " +:+ color_name turn +:+ "'s turn.")
        else
          let dest_piece := Board.get_piece_at db user destination in
          if Board.captures_own dest_piece piece_color
          then Some "Cannot capture your own piece."
          else
            match Board.square_to_indices source,
                  Board.square_to_indices destination with
            | Return (src_row, src_col), Return (dst_row, dst_col) =>
                match Board.shape_rules db user source destination
                        piece_type piece_color src_row src_col
                        (dst_row - src_row) (dst_col - src_col) dest_piece with
                | Return (false, message) => Some message
                | _ => None
                end
            | _, _ => None
            end
    end.

(** The shapes an outcome of [apply_move] can take. *)
Inductive outcome_of (db : Table) (user : User)
    (raw_source raw_destination : string) (turn : Color)
  : Table * Result (Color * PageData) → Prop :=
  | form_raised msg :
      outcome_of db user raw_source raw_destination turn
        (db, Raise (ValueError msg))
  | form_rejected :
      outcome_of db user raw_source raw_destination turn
        (db, Return (turn, page db user turn None true))
  | move_rejected message :
      outcome_of db user raw_source raw_destination turn
        (db, Return (turn, page db user turn (Some message) false))
  | move_accepted source destination piece message :
      ChessForm raw_source raw_destination
      = Return (Some (source, destination)) →
      db !! (user, source) = Some piece →
      (∃ piece_type, Board.PIECE_MAPPING !! piece = Some (piece_type, turn)) →
      Board.validate_move db user source destination piece
      = Return (true, message) →
      outcome_of db user raw_source raw_destination turn
        (moved db user source destination piece,
         Return (other_color turn,
                 page (moved db user source destination piece) user turn
                   None false)).

(** The square the path loop inspects at a step. *)
Definition path_square (src_row src_col step_row step_col step : Z) : string :=
  Board.location_of (src_row + step * step_row) (src_col + step * step_col).

(** The rook rule as the specification words it, for one move: accepted
    exactly when one of the two deltas is zero and the path is clear. *)
Definition rook_rule_as_stated (db : Table) (user : User)
    (source destination : string) (turn : Color) : Prop :=
  ∀ src_row src_col dst_row dst_col,
    Board.square_to_indices source = Return (src_row, src_col) →
    Board.square_to_indices destination = Return (dst_row, dst_col) →
    let d_row := dst_row - src_row in
    let d_col := dst_col - src_col in
    accepts (apply_move user source destination turn db).2 = true
    ↔ ((d_row = 0 ∧ d_col ≠ 0) ∨ (d_row ≠ 0 ∧ d_col = 0))
      ∧ Board.is_path_clear db user source destination = Return true.

(** *** Tables of the examples *)

(** The table of user 0 after [newGame] on an empty table. *)
Definition initial_table : Table := (newGame 0%nat ∅).1.

(** The table after 1. e4 d5, white to move: the pawn on e4 can take d5. *)
Definition table_e4_d5 : Table :=
  moved (moved initial_table 0%nat "e2" "e4" "&#9817;") 0%nat "d7" "d5" "&#9823;".

(** *** Layouts as lists of rows *)

(** The rows one rank of a layout stands for, and those of a layout. *)
Definition rank_entries (rank : string) (pieces : list string)
  : list (string * string) :=
  zip_with (λ file piece, (String file rank, piece)) files pieces.

Definition layout_entries (initial_board : list (string * list string))
  : list (string * string) :=
  concat ((λ '(rank, pieces), rank_entries rank pieces) <$> initial_board).

(** The table after the rows of a list were written for a user, in order. *)
Fixpoint insert_rows (user : User) (rows : list (string * string))
    (db : Table) : Table :=
  match rows with
  | [] => db
  | (location, value) :: rest =>
      insert_rows user rest (<[(user, location) := value]> db)
  end.

(** The value a list of rows gives a location, [&nbsp;] when it has none. *)
Fixpoint value_in (rows : list (string * string)) (location : string) : string :=
  match rows with
  | [] => "&nbsp;"
  | (location', value) :: rest =>
      if String.eqb location location' then value else value_in rest location
  end.

(** The locations of the grid, as [board_rows] visits them. *)
Definition grid_locations : list (list string) :=
  (λ rank : Z, (λ file, String file (Py.str rank)) <$> files)
    <$> [8; 7; 6; 5; 4; 3; 2; 1].

(** The pieces of a colour on a grid. *)
Definition count_color (grid : list (list string)) (color : Color) : nat :=
  length (filter (λ value, snd <$> Board.PIECE_MAPPING !! value = Some color)
            (concat grid)).

(** The grid of the standard starting position, rank 8 first. *)
Definition standard_grid : list (list string) :=
  [ ["&#9820;"; "&#9822;"; "&#9821;"; "&#9819;";
     "&#9818;"; "&#9821;"; "&#9822;"; "&#9820;"];
    replicate 8 "&#9823;";
    replicate 8 "&nbsp;"; replicate 8 "&nbsp;";
    replicate 8 "&nbsp;"; replicate 8 "&nbsp;";
    replicate 8 "&#9817;";
    ["&#9814;"; "&#9816;"; "&#9815;"; "&#9813;";
     "&#9812;"; "&#9815;"; "&#9816;"; "&#9814;"] ].

(** *** Notions the further properties use *)


(** Whether every character of a string is whitespace. *)
Fixpoint all_space (s : string) : bool :=
  match s with
  | EmptyString => true
  | String c t => Py.isspace c && all_space t
  end.

(** A value the application writes: the empty marker or a piece. *)
Definition known_value (value : string) : Prop :=
  value = "&nbsp;" ∨ is_Some (Board.PIECE_MAPPING !! value).

#[global] Instance known_value_dec value : Decision (known_value value).
Proof. unfold known_value. apply _. Defined.

(** Every row of the user holds a known value. *)
Definition known_values (db : Table) (user : User) : Prop :=
  ∀ location value, db !! (user, location) = Some value → known_value value.

(** Every square of the grid has a row. *)
Definition complete_grid (db : Table) (user : User) : Prop :=
  ∀ location, location ∈ concat grid_locations →
    is_Some (db !! (user, location)).

(** The table after [newGame], and what [chess_view] returns when it has
    set the board up anew. *)
Definition fresh_game (db : Table) (user : User) : Table := (newGame user db).1.

Definition fresh_page (db : Table) (user : User) (turn : Color)
  : Table * Result (Color * PageData) :=
  (fresh_game db user,
   Return (white, page (fresh_game db user) user turn None false)).

(** A decidable goal without variables, settled by evaluation. *)
Ltac decide_by_computation :=
  match goal with
  | |- ?P => refine (@bool_decide_unpack P _ _); vm_compute; exact I
  end.

(** * Properties *)

(** ** Squares and the form *)

Lemma int_error c e : Py.int c = Raise e → ∃ msg, e = ValueError msg.
Proof. unfold Py.int. case_match; [done|]. intros [= <-]. eauto. Qed.

Lemma square_to_indices_error square e :
  Board.square_to_indices square = Raise e → ∃ msg, e = ValueError msg.
Proof.
  unfold Board.square_to_indices.
  repeat case_match; intros [= <-]; eauto.
  all: match goal with H : Py.int _ = Raise _ |- _ => apply int_error in H as [? [=]] end.
Qed.

Lemma square_to_indices_inv square row col :
  Board.square_to_indices square = Return (row, col) →
  (0 ≤ row < 8 ∧ 0 ≤ col < 8)
  ∧ ∃ f rank, square = String f (String rank EmptyString)
        ∧ col = Py.ord (Py.lower f) - 97 ∧ Py.int rank = Return (8 - row).
Proof.
  unfold Board.square_to_indices.
  repeat case_match; try done. intros [= <- <-].
  match goal with H : negb _ = false |- _ => apply negb_false_iff in H; rename H into Hb end.
  split; [lia|]. do 2 eexists. split; [done|]. split; [done|].
  match goal with H : Py.int _ = _ |- _ => rewrite H end. f_equal. lia.
Qed.

Lemma contains_files c :
  Py.contains "abcdefgh" c = true → 0 ≤ Py.ord c - 97 < 8.
Proof.
  simpl. rewrite !orb_true_iff, !Ascii.eqb_eq.
  intros H. repeat destruct H as [H|H]; try discriminate H; subst c; vm_compute; split; congruence.
Qed.

Lemma validate_square_parses value :
  validate_square value = Return tt →
  ∃ row col, Board.square_to_indices value = Return (row, col).
Proof.
  unfold validate_square.
  destruct value as [|f [|rank [|? ?]]]; try done.
  destruct (Py.contains _ _) eqn:Hf; [|done]. simpl negb. cbv iota.
  destruct (Py.isdigit rank); [|done]. simpl negb. cbv iota.
  destruct (Py.int rank) as [n|e] eqn:Hn; [|done]. simpl.
  destruct (negb _) eqn:Hb; [done|]. intros _.
  apply negb_false_iff in Hb. apply contains_files in Hf.
  unfold Board.square_to_indices. rewrite Hn.
  eexists _, _. rewrite (proj2 (negb_false_iff _)); [done|].
  change (Py.ord "a") with 97. lia.
Qed.

Lemma clean_field_parses raw square :
  clean_field raw = Return (Some square) →
  Py.strip raw = square
  ∧ ∃ row col, Board.square_to_indices square = Return (row, col).
Proof.
  unfold clean_field. case_match; [done|].
  destruct (validate_square _) as [[]|e] eqn:Hv.
  - intros [= <-]. split; [done|]. by apply validate_square_parses.
  - by destruct e.
Qed.

Lemma ChessForm_inv raw_source raw_destination source destination :
  ChessForm raw_source raw_destination = Return (Some (source, destination)) →
  clean_field raw_source = Return (Some source)
  ∧ clean_field raw_destination = Return (Some destination).
Proof.
  unfold ChessForm.
  destruct (clean_field raw_source) as [[s|]|] eqn:Hs; simpl; try done;
    destruct (clean_field raw_destination) as [[d|]|]; simpl; try done.
  by intros [= <- <-].
Qed.

(** A failing form never comes from a [ValidationError] that escaped. *)
Lemma ChessForm_raise raw_source raw_destination e :
  ChessForm raw_source raw_destination = Raise e → ∃ msg, e = ValueError msg.
Proof.
  assert (Hc : ∀ raw e', clean_field raw = Raise e' → ∃ msg, e' = ValueError msg).
  { intros raw e'. unfold clean_field. case_match; [done|].
    unfold validate_square. repeat case_match; try done.
    all: intros [= <-].
    all: match goal with H : _ = Raise _ |- _ => revert H end.
    all: unfold mbind, Result_bind; repeat case_match; try done.
    all: intros [= <-].
    all: match goal with H : Py.int _ = Raise _ |- _ => apply int_error in H end; done. }
  unfold ChessForm.
  destruct (clean_field raw_source) as [s|e1] eqn:Hs; simpl.
  - destruct (clean_field raw_destination) as [d|e2] eqn:Hd; simpl.
    + by repeat case_match.
    + intros [= <-]. eauto.
  - intros [= <-]. eauto.
Qed.

Lemma location_of_parse row col :
  0 ≤ row < 8 → 0 ≤ col < 8 →
  Board.square_to_indices (Board.location_of row col) = Return (row, col)
  ∧ clean_field (Board.location_of row col)
    = Return (Some (Board.location_of row col)).
Proof.
  intros Hr Hc.
  assert (row = 0 ∨ row = 1 ∨ row = 2 ∨ row = 3 ∨ row = 4 ∨ row = 5
          ∨ row = 6 ∨ row = 7) as Hrow by lia.
  assert (col = 0 ∨ col = 1 ∨ col = 2 ∨ col = 3 ∨ col = 4 ∨ col = 5
          ∨ col = 6 ∨ col = 7) as Hcol by lia.
  clear Hr Hc.
  repeat destruct Hrow as [Hrow|Hrow]; subst row;
    repeat destruct Hcol as [Hcol|Hcol]; subst col; by vm_compute.
Qed.

Lemma PIECE_MAPPING_keys piece piece_type piece_color :
  Board.PIECE_MAPPING !! piece = Some (piece_type, piece_color) →
  Board.is_empty piece = false ∧ no_piece piece = false.
Proof.
  unfold Board.PIECE_MAPPING. intros H.
  apply elem_of_list_to_map_2 in H.
  repeat (apply elem_of_cons in H as [H|H]; [by inversion H|]).
  by apply elem_of_nil in H.
Qed.

(** ** The path between two squares *)

Lemma path_loop_Forall db user src_row src_col step_row step_col steps :
  Board.path_loop db user src_row src_col step_row step_col steps = true
  ↔ Forall (λ step,
       Board.is_empty (Board.get_piece_at db user
         (path_square src_row src_col step_row step_col step)) = true) steps.
Proof.
  induction steps as [|step rest IH]; simpl.
  - split; [constructor|done].
  - rewrite Forall_cons, <- IH. unfold path_square.
    destruct (Board.is_empty _); simpl; [tauto|].
    split; [done|]. by intros [? _].
Qed.

Lemma is_path_clear_spec db user source destination src_row src_col dst_row dst_col :
  Board.square_to_indices source = Return (src_row, src_col) →
  Board.square_to_indices destination = Return (dst_row, dst_col) →
  let delta_row := dst_row - src_row in
  let delta_col := dst_col - src_col in
  let steps := Z.max (Z.abs delta_row) (Z.abs delta_col) in
  ∃ clear : bool,
    Board.is_path_clear db user source destination = Return clear
    ∧ (clear = true ↔
       ∀ step, 1 ≤ step < steps →
         Board.is_empty (Board.get_piece_at db user
           (path_square src_row src_col
              (delta_row `div` steps) (delta_col `div` steps) step)) = true).
Proof.
  intros Hs Hd delta_row delta_col steps.
  unfold Board.is_path_clear. rewrite Hs, Hd. simpl.
  fold delta_row delta_col steps.
  destruct (Z.leb_spec steps 1) as [Hle|Hgt].
  - exists true. split; [done|]. split; [|done]. intros _ step ?. lia.
  - eexists. split; [done|].
    rewrite path_loop_Forall, Forall_seqZ.
    split; intros H step Hstep; apply H; lia.
Qed.

Lemma is_path_clear_returns db user source destination src_row src_col dst_row dst_col :
  Board.square_to_indices source = Return (src_row, src_col) →
  Board.square_to_indices destination = Return (dst_row, dst_col) →
  ∃ clear, Board.is_path_clear db user source destination = Return clear.
Proof.
  intros Hs Hd.
  destruct (is_path_clear_spec db user _ _ _ _ _ _ Hs Hd) as (clear & H & _).
  eauto.
Qed.

(** For an aligned move the increments of the path are the signs of the
    deltas, so the squares visited are those strictly between the ends. *)
Lemma aligned_increment delta_row delta_col :
  delta_row = 0 ∨ delta_col = 0 ∨ Z.abs delta_row = Z.abs delta_col →
  let steps := Z.max (Z.abs delta_row) (Z.abs delta_col) in
  0 < steps →
  delta_row `div` steps = Z.sgn delta_row
  ∧ delta_col `div` steps = Z.sgn delta_col.
Proof.
  intros Hal steps Hpos. subst steps.
  assert (Hdiv : ∀ a b, 0 < b → (a = 0 ∨ a = b ∨ a = - b) → a `div` b = Z.sgn a).
  { intros a b Hb [->|[->| ->]].
    - by rewrite Z.div_0_l by lia.
    - rewrite Z.div_same by lia. lia.
    - rewrite Z.div_opp_l_z by (try lia; apply Z.mod_same; lia).
      rewrite Z.div_same by lia. lia. }
  split; apply Hdiv; lia.
Qed.

(** ** [validate_move] *)

Lemma validate_move_unfold db user source destination piece
    src_row src_col dst_row dst_col piece_type piece_color :
  Board.square_to_indices source = Return (src_row, src_col) →
  Board.square_to_indices destination = Return (dst_row, dst_col) →
  Board.PIECE_MAPPING !! piece = Some (piece_type, piece_color) →
  Board.validate_move db user source destination piece =
  if Board.captures_own (Board.get_piece_at db user destination) piece_color
  then Return (false, "Cannot capture your own piece.")
  else Board.shape_rules db user source destination piece_type piece_color
         src_row src_col (dst_row - src_row) (dst_col - src_col)
         (Board.get_piece_at db user destination).
Proof. intros Hs Hd Hp. unfold Board.validate_move. by rewrite Hs, Hd, Hp. Qed.

Lemma shape_rules_returns db user source destination piece_type piece_color
    src_row src_col dst_row dst_col d_row d_col dest_piece :
  Board.square_to_indices source = Return (src_row, src_col) →
  Board.square_to_indices destination = Return (dst_row, dst_col) →
  ∃ valid message,
    Board.shape_rules db user source destination piece_type piece_color
      src_row src_col d_row d_col dest_piece = Return (valid, message).
Proof.
  intros Hs Hd.
  destruct (is_path_clear_returns db user _ _ _ _ _ _ Hs Hd) as [clear Hc].
  unfold Board.shape_rules, Py.and_then.
  destruct piece_type; rewrite ?Hc; simpl;
    repeat case_match; simpl; eauto.
  all: try (destruct (Board.pawn_rule _ _ _ _ _ _ _ _); eauto).
  all: destruct clear; eauto.
Qed.

Lemma validate_move_returns db user source destination piece :
  ∃ valid message,
    Board.validate_move db user source destination piece
    = Return (valid, message).
Proof.
  unfold Board.validate_move.
  destruct (Board.square_to_indices source) as [[sr sc]|e1] eqn:Hs; simpl.
  - destruct (Board.square_to_indices destination) as [[dr dc]|e2] eqn:Hd; simpl.
    + destruct (Board.PIECE_MAPPING !! piece) as [[pt pc]|]; [|eauto].
      case_match; [eauto|]. by eapply shape_rules_returns.
    + apply square_to_indices_error in Hd as [msg ->]. eauto.
  - apply square_to_indices_error in Hs as [msg ->]. eauto.
Qed.

(** What an accepting [validate_move] has established. *)
Lemma validate_move_true db user source destination piece message :
  Board.validate_move db user source destination piece = Return (true, message) →
  ∃ src_row src_col dst_row dst_col piece_type piece_color,
    Board.square_to_indices source = Return (src_row, src_col)
    ∧ Board.square_to_indices destination = Return (dst_row, dst_col)
    ∧ Board.PIECE_MAPPING !! piece = Some (piece_type, piece_color)
    ∧ Board.captures_own (Board.get_piece_at db user destination) piece_color
      = false
    ∧ Board.shape_rules db user source destination piece_type piece_color
        src_row src_col (dst_row - src_row) (dst_col - src_col)
        (Board.get_piece_at db user destination) = Return (true, message).
Proof.
  unfold Board.validate_move.
  destruct (Board.square_to_indices source) as [[sr sc]|e1] eqn:Hs; simpl.
  - destruct (Board.square_to_indices destination) as [[dr dc]|e2] eqn:Hd; simpl.
    + destruct (Board.PIECE_MAPPING !! piece) as [[pt pc]|] eqn:Hp; [|done].
      destruct (Board.captures_own _ _) eqn:Hown; [done|].
      intros H. by eexists _, _, _, _, _, _.
    + by destruct e2.
  - by destruct e1.
Qed.

(** A piece never moves onto the location it stands on. *)
Lemma validate_move_distinct db user source destination piece message :
  db !! (user, source) = Some piece →
  Board.validate_move db user source destination piece = Return (true, message) →
  source ≠ destination.
Proof.
  intros Hsrc Hv <-.
  apply validate_move_true in Hv as (? & ? & ? & ? & pt & pc & _ & _ & Hp & Hown & _).
  unfold Board.captures_own, Board.get_piece_at in Hown.
  rewrite Hsrc, Hp in Hown.
  apply PIECE_MAPPING_keys in Hp as [He _].
  rewrite He in Hown. simpl in Hown. by rewrite bool_decide_true in Hown.
Qed.

(** ** [move_piece] and [apply_move] *)

Lemma get_piece_at_Some db user square :
  no_piece (Board.get_piece_at db user square) = false →
  db !! (user, square) = Some (Board.get_piece_at db user square).
Proof. unfold Board.get_piece_at. by destruct (db !! (user, square)). Qed.

Lemma moved_lookup db user source destination piece :
  source ≠ destination →
  moved db user source destination piece !! (user, destination) = Some piece
  ∧ moved db user source destination piece !! (user, source) = Some "&nbsp;"
  ∧ ∀ key, key ≠ (user, source) → key ≠ (user, destination) →
      moved db user source destination piece !! key = db !! key.
Proof.
  intros Hne. unfold moved. split; [by rewrite lookup_insert_eq|]. split.
  - rewrite lookup_insert_ne by congruence. by rewrite lookup_insert_eq.
  - intros key Hs Hd.
    rewrite lookup_insert_ne by done. rewrite lookup_insert_ne by done.
    by rewrite lookup_delete_ne.
Qed.

Lemma move_piece_unfold user source destination db :
  Board.move_piece user source destination db =
  match db !! (user, source) with
  | None => (db, Return (false, "Source square not found."))
  | Some piece =>
      if no_piece piece then (db, Return (false, "No piece at source."))
      else
        match Board.validate_move db user source destination piece with
        | Return (true, _) =>
            (moved db user source destination piece,
             Return (true, "Move completed."))
        | Return (false, message) => (db, Return (false, message))
        | Raise e => (db, Raise e)
        end
  end.
Proof.
  unfold Board.move_piece, objects.get, query.
  unfold mbind at 1, DB_bind.
  destruct (db !! (user, source)) as [piece|] eqn:Hsrc; [|done].
  destruct (no_piece piece); [done|].
  unfold mbind at 1, DB_bind.
  destruct (Board.validate_move db user source destination piece)
    as [[[] message]|e] eqn:Hv; try done.
  unfold mbind, DB_bind, objects.delete, objects.save, objects.create.
  pose proof (validate_move_distinct _ _ _ _ _ _ Hsrc Hv) as Hne.
  change (negb true) with false. cbv beta iota.
  rewrite lookup_insert_ne by congruence.
  by rewrite lookup_delete_eq.
Qed.

Lemma apply_move_unfold user raw_source raw_destination turn db :
  apply_move user raw_source raw_destination turn db =
  match ChessForm raw_source raw_destination with
  | Raise e => (db, Raise e)
  | Return None => (db, Return (turn, page db user turn None true))
  | Return (Some (source, destination)) =>
      let piece := Board.get_piece_at db user source in
      if no_piece piece
      then (db, Return (turn, page db user turn
                                (Some "No piece at the source square.") false))
      else
        match Board.PIECE_MAPPING !! piece with
        | None =>
            (db, Return (turn, page db user turn
                                 (Some "Unrecognized piece.") false))
        | Some (_, piece_color) =>
            if bool_decide (piece_color ≠ turn)
            then (db, Return (turn, page db user turn
                     (Some ("It is " +:+ color_name turn +:+ "'s turn."))
                     false))
            else
              match Board.validate_move db user source destination piece with
              | Return (true, _) =>
                  let db' := moved db user source destination piece in
                  (db', Return (other_color turn,
                                page db' user turn None false))
              | Return (false, message) =>
                  (db, Return (turn, page db user turn (Some message) false))
              | Raise e => (db, Raise e)
              end
        end
  end.
Proof.
  unfold apply_move, chess_view, move_request. simpl.
  unfold mbind at 1, DB_bind. unfold mbind at 1, DB_bind, lift.
  destruct (ChessForm raw_source raw_destination) as [[[source destination]|]|e];
    [|done..].
  unfold mbind at 1, DB_bind, query. cbv zeta.
  destruct (no_piece _) eqn:Hnp; [done|].
  destruct (Board.PIECE_MAPPING !! _) as [[pt pc]|]; [|done].
  destruct (bool_decide (pc ≠ turn)); [done|].
  unfold mbind at 1, DB_bind. rewrite move_piece_unfold.
  rewrite (get_piece_at_Some _ _ _ Hnp), Hnp.
  by destruct (Board.validate_move _ _ _ _ _) as [[[] message]|e].
Qed.

Lemma apply_move_outcome user raw_source raw_destination turn db :
  outcome_of db user raw_source raw_destination turn
    (apply_move user raw_source raw_destination turn db).
Proof.
  rewrite apply_move_unfold.
  destruct (ChessForm _ _) as [[[source destination]|]|e] eqn:Hform.
  - cbv zeta. destruct (no_piece _) eqn:Hnp; [constructor|].
    destruct (Board.PIECE_MAPPING !! _) as [[pt pc]|] eqn:Hp; [|constructor].
    destruct (bool_decide_reflect (pc ≠ turn)) as [|Hpc]; [constructor|].
    apply dec_stable in Hpc as ->.
    destruct (validate_move_returns db user source destination
                (Board.get_piece_at db user source)) as (valid & message & Hv).
    rewrite Hv. destruct valid; [|constructor].
    econstructor; eauto. by apply get_piece_at_Some.
  - constructor.
  - apply ChessForm_raise in Hform as [msg ->]. constructor.
Qed.

(** ** Writing a layout *)

Lemma insert_rows_app user rows1 rows2 db :
  insert_rows user (rows1 ++ rows2) db
  = insert_rows user rows2 (insert_rows user rows1 db).
Proof.
  revert db. induction rows1 as [|[location value] rest IH]; intros db; simpl;
    [done|apply IH].
Qed.

Lemma insert_rows_lookup_other user rows db key :
  (∀ location, key = (user, location) → location ∉ rows.*1) →
  insert_rows user rows db !! key = db !! key.
Proof.
  revert db. induction rows as [|[location value] rest IH]; intros db Hkey;
    simpl; [done|].
  rewrite IH.
  - apply lookup_insert_ne. intros <-.
    apply (Hkey location eq_refl). simpl. left.
  - intros location' -> Hin. apply (Hkey location' eq_refl). simpl. by right.
Qed.

Lemma insert_rows_lookup user rows db location :
  NoDup rows.*1 → location ∈ rows.*1 →
  insert_rows user rows db !! (user, location)
  = Some (value_in rows location).
Proof.
  revert db. induction rows as [|[location' value] rest IH]; intros db Hnd Hin;
    simpl in *; [by apply elem_of_nil in Hin|].
  apply NoDup_cons in Hnd as [Hfresh Hnd].
  destruct (String.eqb_spec location location') as [->|Hne].
  - rewrite insert_rows_lookup_other; [by rewrite lookup_insert_eq|].
    by intros ? [= <-].
  - apply elem_of_cons in Hin as [?|Hin]; [done|]. by apply IH.
Qed.

(** The loop over one rank writes the rows of [rank_entries]. *)
Lemma create_rank user rank pieces (k : nat) db :
  (k + length pieces ≤ 8)%nat →
  let entries :=
    zip_with (λ file piece, (String file rank, piece)) (drop k files) pieces in
  NoDup entries.*1 →
  (∀ location, location ∈ entries.*1 → db !! (user, location) = None) →
  for_each (zip (seq k (length pieces)) pieces)
    (λ '(i, piece),
       location ← lift (match files !! i with
                        | Some file => Return (String file rank)
                        | None => Raise IndexError
                        end);
       objects.create user location piece) db
  = (insert_rows user entries db, Return tt).
Proof.
  revert k db. induction pieces as [|piece rest IH]; intros k db Hk entries Hnd Hfresh.
  { subst entries. by destruct (drop k files). }
  simpl in Hk.
  assert (∃ file, files !! k = Some file) as [file Hfile]
    by (apply lookup_lt_is_Some; simpl; lia).
  subst entries. rewrite (drop_S _ _ _ Hfile) in *. simpl in *.
  apply NoDup_cons in Hnd as [Hhead Hnd].
  unfold mbind at 1, DB_bind. unfold mbind at 1, DB_bind, lift.
  rewrite Hfile. unfold objects.create at 1.
  rewrite (Hfresh (String file rank)) by left.
  apply IH; [lia|done|].
  intros location Hin. rewrite lookup_insert_ne.
  - apply Hfresh. by right.
  - intros [= <-]. done.
Qed.

Lemma create_rows_fresh user initial_board db :
  Forall (λ row, (length row.2 ≤ 8)%nat) initial_board →
  NoDup (layout_entries initial_board).*1 →
  (∀ location, location ∈ (layout_entries initial_board).*1 →
               db !! (user, location) = None) →
  create_rows user initial_board db
  = (insert_rows user (layout_entries initial_board) db, Return tt).
Proof.
  unfold create_rows, layout_entries.
  revert db. induction initial_board as [|[rank pieces] rest IH];
    intros db Hlen Hnd Hfresh; [done|].
  apply Forall_cons in Hlen as [Hlen Hlens]. simpl in Hlen, Hnd, Hfresh.
  rewrite fmap_app in Hnd, Hfresh.
  apply NoDup_app in Hnd as (Hnd1 & Hdisj & Hnd2).
  assert (for_each (enumerate pieces)
            (λ '(i, piece),
               location ← lift (match files !! i with
                                | Some file => Return (String file rank)
                                | None => Raise IndexError
                                end);
               objects.create user location piece) db
          = (insert_rows user (rank_entries rank pieces) db, Return tt)) as Hrow.
  { apply (create_rank user rank pieces 0 db); [simpl; lia|done|].
    intros location Hin. apply Hfresh, elem_of_app. by left. }
  cbn [for_each fmap list_fmap concat]. unfold mbind at 1. unfold DB_bind at 1.
  rewrite Hrow. rewrite insert_rows_app. apply IH; [done|done|].
  intros location Hin. rewrite insert_rows_lookup_other.
  - apply Hfresh, elem_of_app. by right.
  - intros ? [= <-] Hin1. by apply (Hdisj location).
Qed.

Lemma delete_user_lookup user db key :
  (objects.delete_user user db).1 !! key
  = if decide (key.1 = user) then None else db !! key.
Proof.
  unfold objects.delete_user. simpl.
  destruct (decide (key.1 = user)) as [Heq|Hne].
  - apply map_lookup_filter_None. right. intros value _ Hk. by apply Hk.
  - destruct (db !! key) as [value|] eqn:Hdb.
    + by apply map_lookup_filter_Some.
    + apply map_lookup_filter_None. by left.
Qed.

Lemma board_rows_locations db user :
  board_rows db user
  = fmap (M:=list) (fmap (M:=list) (Board.get_piece_at db user)) grid_locations.
Proof. reflexivity. Qed.

Lemma initialise_lookup user initial_board db :
  Forall (λ row, (length row.2 ≤ 8)%nat) initial_board →
  NoDup (layout_entries initial_board).*1 →
  let result :=
    (_ ← objects.delete_user user; create_rows user initial_board) db in
  result.2 = Return tt
  ∧ (∀ location,
       result.1 !! (user, location)
       = if decide (location ∈ (layout_entries initial_board).*1)
         then Some (value_in (layout_entries initial_board) location)
         else None)
  ∧ (∀ other location, other ≠ user →
       result.1 !! (other, location) = db !! (other, location)).
Proof.
  intros Hlen Hnd result. subst result.
  unfold mbind, DB_bind.
  destruct (objects.delete_user user db) as [db0 []] eqn:Hdel; [|done].
  assert (∀ key, db0 !! key = if decide (key.1 = user) then None else db !! key)
    as Hdb0.
  { intros key. rewrite <- delete_user_lookup. by rewrite Hdel. }
  rewrite create_rows_fresh; [|done|done|].
  - simpl. split; [done|]. split.
    + intros location. case_decide as Hin.
      * by apply insert_rows_lookup.
      * rewrite insert_rows_lookup_other; [|by intros ? [= <-]].
        rewrite Hdb0. simpl. by rewrite decide_True.
    + intros other location Hne.
      rewrite insert_rows_lookup_other; [|by intros ? [= ? _]].
      rewrite Hdb0. simpl. by rewrite decide_False.
  - intros location _. rewrite Hdb0. simpl. by rewrite decide_True.
Qed.

Lemma initialise_grid user initial_board db :
  Forall (λ row, (length row.2 ≤ 8)%nat) initial_board →
  NoDup (layout_entries initial_board).*1 →
  Forall (Forall (λ location, location ∈ (layout_entries initial_board).*1))
    grid_locations →
  board_rows ((_ ← objects.delete_user user;
               create_rows user initial_board) db).1 user
  = fmap (M:=list) (fmap (M:=list) (value_in (layout_entries initial_board)))
      grid_locations.
Proof.
  intros Hlen Hnd Hgrid.
  destruct (initialise_lookup user initial_board db Hlen Hnd) as (_ & Hin & _).
  rewrite board_rows_locations.
  apply Forall_fmap_ext. eapply Forall_impl; [exact Hgrid|].
  intros row Hrow. apply Forall_fmap_ext. eapply Forall_impl; [exact Hrow|].
  intros location Hloc. simpl in Hloc.
  unfold Board.get_piece_at. rewrite Hin. by rewrite decide_True.
Qed.

(** * The claims of the specification *)

(** ** C1: the order of the rejection checks *)

(** C1.  [apply_move] evaluates its rejection checks in this order: no
    piece on the source square, piece not of the colour to move,
    destination held by a piece of the mover's colour, shape and path rule
    of the piece.  For every table, turn and pair of squares the form
    accepts, with a source value that is empty or a known piece, the view
    returns, its message is that of the first check of this order that
    fails, and the move is accepted exactly when none fails.  So the turn
    check and the own-piece check both answer before any shape rule is
    looked at. *)
Theorem apply_move_first_failing_check db user raw_source raw_destination
    source destination turn :
  ChessForm raw_source raw_destination = Return (Some (source, destination)) →
  no_piece (Board.get_piece_at db user source) = true
  ∨ is_Some (Board.PIECE_MAPPING !! Board.get_piece_at db user source) →
  ∃ new_turn page_data,
    (apply_move user raw_source raw_destination turn db).2
    = Return (new_turn, page_data)
    ∧ error page_data = first_failing_check db user source destination turn
    ∧ (accepted page_data = true
       ↔ first_failing_check db user source destination turn = None).
Proof.
  intros Hform Hknown. rewrite apply_move_unfold, Hform.
  apply ChessForm_inv in Hform as [Hs Hd].
  apply clean_field_parses in Hs as (_ & sr & sc & Hs).
  apply clean_field_parses in Hd as (_ & dr & dc & Hd).
  unfold first_failing_check. cbv zeta.
  destruct (no_piece _) eqn:Hnp.
  { eexists _, _. split; [done|]. by split. }
  destruct Hknown as [|[[pt pc] Hp]]; [done|]. rewrite Hp.
  destruct (bool_decide (pc ≠ turn)).
  { eexists _, _. split; [done|]. by split. }
  rewrite (validate_move_unfold _ _ _ _ _ _ _ _ _ _ _ Hs Hd Hp), Hs, Hd.
  destruct (Board.captures_own _ _).
  { eexists _, _. split; [done|]. by split. }
  destruct (shape_rules_returns db user source destination pt pc sr sc dr dc
              (dr - sr) (dc - sc) (Board.get_piece_at db user destination) Hs Hd)
    as (valid & message & ->).
  destruct valid; eexists _, _; (split; [done|]); by split.
Qed.

Lemma apply_move_first_failing_check_witness :
  ∃ new_turn page_data,
    (apply_move 0%nat "d8" "d4" white initial_table).2
    = Return (new_turn, page_data)
    ∧ error page_data
      = first_failing_check initial_table 0%nat "d8" "d4" white
    ∧ (accepted page_data = true
       ↔ first_failing_check initial_table 0%nat "d8" "d4" white = None).
Proof.
  apply (apply_move_first_failing_check initial_table 0%nat "d8" "d4").
  - vm_compute. reflexivity.
  - right. vm_compute. eauto.
Defined.

(** On the board of a new game, white to move: the black queen d8 to d4
    is blocked by its own pawn, and the rook a1 to b2 is no rook move onto
    an own pawn; the turn and the own-piece messages come first. *)
Example misleading_messages :
  (apply_move 0%nat "d8" "d4" white initial_table).2
  = Return (white, page initial_table 0%nat white
                     (Some "It is white's turn.") false)
  ∧ Board.shape_rules initial_table 0%nat "d8" "d4" queen black 0 3 4 0 "&nbsp;"
    = Return (false, "Illegal queen move or path is blocked.")
  ∧ (apply_move 0%nat "a1" "b2" white initial_table).2
    = Return (white, page initial_table 0%nat white
                       (Some "Cannot capture your own piece.") false)
  ∧ Board.shape_rules initial_table 0%nat "a1" "b2" rook white 7 0 (-1) 1
      "&#9817;"
    = Return (false, "Illegal rook move or path is blocked.").
Proof. vm_compute. done. Qed.

(** ** C2: the starting layout *)

Lemma initial_board_well_formed :
  Forall (λ row : string * list string, (length row.2 ≤ 8)%nat) initial_board
  ∧ NoDup (layout_entries initial_board).*1
  ∧ Forall (Forall (λ location, location ∈ (layout_entries initial_board).*1))
      grid_locations.
Proof. repeat split; decide_by_computation. Qed.

Lemma Board_initial_board_well_formed :
  Forall (λ row : string * list string, (length row.2 ≤ 8)%nat)
    Board.initial_board
  ∧ NoDup (layout_entries Board.initial_board).*1
  ∧ Forall (Forall (λ location,
                      location ∈ (layout_entries Board.initial_board).*1))
      grid_locations.
Proof. repeat split; decide_by_computation. Qed.

(** The pieces [standard_grid] stands for: black on ranks 8 and 7, white
    on ranks 2 and 1, rook, knight, bishop, queen, king, bishop, knight,
    rook on the back ranks. *)
Example standard_grid_pieces :
  let back color :=
    Some <$> [ (rook, color); (knight, color); (bishop, color); (queen, color);
               (king, color); (bishop, color); (knight, color); (rook, color) ] in
  fmap (M:=list) (fmap (M:=list) (λ value, Board.PIECE_MAPPING !! value))
    standard_grid
  = [ back black; replicate 8 (Some (pawn, black));
      replicate 8 None; replicate 8 None; replicate 8 None; replicate 8 None;
      replicate 8 (Some (pawn, white)); back white ].
Proof. vm_compute. reflexivity. Qed.

(** [newGame], which [chess_view] calls, sets up the standard position
    whatever rows the user had, writes the 64 squares and no other row of
    the user, and leaves the rows of other users alone. *)
Lemma newGame_standard db user :
  let result := newGame user db in
  result.2 = Return tt
  ∧ board_rows result.1 user = standard_grid
  ∧ count_color standard_grid white = 16%nat
  ∧ count_color standard_grid black = 16%nat
  ∧ (∀ location,
       location ∉ concat grid_locations → result.1 !! (user, location) = None)
  ∧ (∀ other location, other ≠ user →
       result.1 !! (other, location) = db !! (other, location)).
Proof.
  destruct initial_board_well_formed as (Hlen & Hnd & Hgrid).
  destruct (initialise_lookup user initial_board db Hlen Hnd)
    as (Hret & Hin & Hother).
  cbv zeta. unfold newGame.
  split; [done|]. split; [by rewrite initialise_grid|].
  split; [by vm_compute|]. split; [by vm_compute|]. split; [|done].
  intros location Hout. rewrite Hin. apply decide_False.
  intros Hloc. apply Hout. revert Hloc. clear.
  assert (Hsub : (layout_entries initial_board).*1 ⊆ concat grid_locations)
    by decide_by_computation.
  apply Hsub.
Qed.

(** C2.  After initialisation the board should hold the standard starting
    position, white on ranks 1 and 2, black on ranks 7 and 8.
    [Board.reset_game] does not: for every table and user it returns with
    the colours exchanged, the white back rank on rank 8, the white pawns
    on rank 7, the black pawns on rank 2 and the black back rank on rank 1,
    against its own description of the layout.  Ranks 3 to 6 are empty and
    there are 16 pieces of each colour. *)
Theorem reset_game_exchanges_colors db user :
  let result := Board.reset_game user db in
  let grid := board_rows result.1 user in
  result.2 = Return tt
  ∧ grid = reverse standard_grid
  ∧ grid ≠ standard_grid
  ∧ Board.PIECE_MAPPING !! Board.get_piece_at result.1 user "a1"
    = Some (rook, black)
  ∧ Board.PIECE_MAPPING !! Board.get_piece_at result.1 user "e2"
    = Some (pawn, black)
  ∧ Board.PIECE_MAPPING !! Board.get_piece_at result.1 user "e7"
    = Some (pawn, white)
  ∧ Board.PIECE_MAPPING !! Board.get_piece_at result.1 user "e8"
    = Some (king, white)
  ∧ count_color grid white = 16%nat ∧ count_color grid black = 16%nat.
Proof.
  destruct Board_initial_board_well_formed as (Hlen & Hnd & Hgrid).
  destruct (initialise_lookup user Board.initial_board db Hlen Hnd)
    as (Hret & Hin & _).
  cbv zeta. unfold Board.reset_game.
  rewrite initialise_grid by done.
  unfold Board.get_piece_at. rewrite !Hin.
  split; [done|]. by vm_compute.
Qed.

(** ** C3: a rejected move changes nothing *)

(** C3.  Whenever [apply_move] does not accept the move, the table and the
    turn are what they were: this covers a form with errors, every
    rejection message, and an exception leaving the view.  A table that
    differs from the one before comes only from a move that
    [validate_move] accepted, and then the move is accepted. *)
Theorem rejected_move_changes_nothing db user source destination turn :
  let result := apply_move user source destination turn db in
  (∀ new_turn page_data,
     result.2 = Return (new_turn, page_data) →
     accepted page_data = false → result.1 = db ∧ new_turn = turn)
  ∧ (∀ e, result.2 = Raise e → result.1 = db)
  ∧ (result.1 ≠ db →
     ∃ source' destination' piece message page_data,
       ChessForm source destination = Return (Some (source', destination'))
       ∧ Board.validate_move db user source' destination' piece
         = Return (true, message)
       ∧ result.2 = Return (other_color turn, page_data)
       ∧ accepted page_data = true).
Proof.
  intros result. subst result.
  destruct (apply_move_outcome user source destination turn db)
    as [msg| |message|s d piece message Hform Hsrc Hp Hv]; simpl.
  - split; [done|]. split; [done|]. by intros [].
  - split; [by intros ?? [= <- <-]|]. split; [done|]. by intros [].
  - split; [by intros ?? [= <- <-]|]. split; [done|]. by intros [].
  - split; [by intros ?? [= <- <-]|]. split; [done|]. intros _.
    by eexists s, d, piece, message, _.
Qed.

Lemma rejected_move_changes_nothing_witness :
  (apply_move 0%nat "e2" "e5" white initial_table).1 = initial_table
  ∧ white = white.
Proof.
  apply (proj1 (rejected_move_changes_nothing initial_table 0%nat "e2" "e5" white)
           white (page initial_table 0%nat white (Some "Illegal pawn move.") false)).
  - vm_compute. reflexivity.
  - vm_compute. reflexivity.
Defined.

(** ** C4: the turn alternates *)

(** C4.  When [apply_move] returns, the new turn is the other colour if
    the move was accepted and the turn passed in if it was rejected. *)
Theorem turn_alternation db user source destination turn new_turn page_data :
  (apply_move user source destination turn db).2
  = Return (new_turn, page_data) →
  (accepted page_data = true → new_turn = other_color turn)
  ∧ (accepted page_data = false → new_turn = turn)
  ∧ other_color turn ≠ turn.
Proof.
  destruct (apply_move_outcome user source destination turn db)
    as [msg| |message|s d piece message Hform Hsrc Hp Hv]; simpl; [done|..].
  all: intros [= <- <-]; split; [done|]; split; [done|]; by destruct turn.
Qed.

Lemma turn_alternation_witness :
  (accepted (page (moved initial_table 0%nat "e2" "e4" "&#9817;") 0%nat white
               None false) = true → black = other_color white)
  ∧ (accepted (page (moved initial_table 0%nat "e2" "e4" "&#9817;") 0%nat white
                 None false) = false → black = white)
  ∧ other_color white ≠ white.
Proof.
  apply (turn_alternation initial_table 0%nat "e2" "e4" white black).
  vm_compute. reflexivity.
Defined.

(** ** C5: the pawn *)

(** C5.  The rules of a pawn move, for every table, pair of squares and
    pawn of either colour.  White moves in direction -1 from row 6, black
    in direction +1 from row 1.  One step forward is legal iff the
    destination is empty.  Two steps forward are legal iff the pawn is on
    its starting row and the intermediate square and the destination are
    both empty; off the starting row they never are.  One step forward on
    a neighbouring file is legal iff the destination is occupied: this is
    the verdict of the pawn branch, and that of [validate_move] once the
    check that precedes the branch has let the move through (the
    destination holds no piece of the pawn's colour).  Every other delta
    is illegal.  Past that check [validate_move] returns what the pawn
    branch returns. *)
Theorem pawn_rules db user source destination piece piece_color
    src_row src_col dst_row dst_col :
  Board.square_to_indices source = Return (src_row, src_col) →
  Board.square_to_indices destination = Return (dst_row, dst_col) →
  Board.PIECE_MAPPING !! piece = Some (pawn, piece_color) →
  let d_row := dst_row - src_row in
  let d_col := dst_col - src_col in
  let forward := Board.direction piece_color in
  let dest_piece := Board.get_piece_at db user destination in
  let intermediate :=
    Board.get_piece_at db user (Board.location_of (src_row + forward) src_col) in
  let legal :=
    Board.validate_move db user source destination piece
    = Return (true, EmptyString) in
  (Board.direction white = -1 ∧ Board.start_row white = 6
   ∧ Board.direction black = 1 ∧ Board.start_row black = 1)
  ∧ (d_col = 0 → d_row = forward →
     (legal ↔ Board.is_empty dest_piece = true))
  ∧ (d_col = 0 → d_row = 2 * forward →
     (legal ↔ src_row = Board.start_row piece_color
              ∧ Board.is_empty intermediate = true
              ∧ Board.is_empty dest_piece = true))
  ∧ (Z.abs d_col = 1 → d_row = forward →
     ((Board.pawn_rule db user piece_color src_row src_col d_row d_col
         dest_piece).1 = true
      ↔ Board.is_empty dest_piece = false)
     ∧ (Board.captures_own dest_piece piece_color = false →
        (legal ↔ Board.is_empty dest_piece = false)))
  ∧ (¬ (d_col = 0 ∧ (d_row = forward ∨ d_row = 2 * forward)) →
     ¬ (Z.abs d_col = 1 ∧ d_row = forward) →
     ¬ legal)
  ∧ (Board.captures_own dest_piece piece_color = false →
     Board.validate_move db user source destination piece
     = Return (Board.pawn_rule db user piece_color src_row src_col d_row d_col
                 dest_piece)).
Proof.
  intros Hs Hd Hp d_row d_col forward dest_piece intermediate legal.
  split; [by repeat split|].
  assert (Hown : Board.captures_own dest_piece piece_color = true →
                 Board.is_empty dest_piece = false).
  { unfold Board.captures_own. by destruct (Board.is_empty dest_piece). }
  assert (Hfw : forward = 1 ∨ forward = -1)
    by (subst forward; destruct piece_color; simpl; lia).
  assert (Hdiagonal : Z.abs d_col = 1 → d_row = forward →
            (Board.pawn_rule db user piece_color src_row src_col d_row d_col
               dest_piece).1 = true
            ↔ Board.is_empty dest_piece = false).
  { unfold Board.pawn_rule. fold forward. clearbody dest_piece d_row d_col forward.
    intros Hc ->.
    rewrite (proj2 (Z.eqb_neq d_col 0)) by lia.
    rewrite (proj2 (Z.eqb_eq _ _) Hc), !Z.eqb_refl. simpl.
    destruct (Board.is_empty dest_piece); split; intros H;
      first [reflexivity | discriminate H]. }
  subst legal.
  rewrite (validate_move_unfold _ _ _ _ _ _ _ _ _ _ _ Hs Hd Hp).
  fold dest_piece d_row d_col.
  unfold Board.shape_rules.
  destruct (Board.captures_own dest_piece piece_color) eqn:Hcap.
  { specialize (Hown eq_refl).
    split; [intros _ _; split; [intros ?; discriminate|congruence]|].
    split; [intros _ _; split;
              [intros ?; discriminate|intros (_ & _ & ?); congruence]|].
    split; [intros Hc Hr; split; [by apply Hdiagonal|intros ?; discriminate]|].
    split; [intros _ _ ?; discriminate|intros ?; discriminate]. }
  clear Hown Hcap.
  split; [|split; [|split; [|split; [|done]]]];
    [| |intros Hc Hr; split; [by apply Hdiagonal|intros _; revert Hc Hr]|];
    clear Hdiagonal; unfold Board.pawn_rule; fold forward; fold intermediate;
    clearbody intermediate dest_piece d_row d_col; clearbody forward.
  - (* one step forward *)
    intros -> ->. rewrite !Z.eqb_refl. simpl.
    destruct (Board.is_empty dest_piece); split; intros H;
      first [reflexivity | discriminate H].
  - (* two steps forward *)
    intros -> ->.
    rewrite (proj2 (Z.eqb_neq (2 * forward) forward)) by lia.
    rewrite !Z.eqb_refl. simpl.
    destruct (Z.eqb_spec src_row (Board.start_row piece_color)) as [Hst|Hst];
      simpl.
    + destruct (Board.is_empty intermediate), (Board.is_empty dest_piece);
        simpl; split; intros H;
        first [by repeat split | discriminate H
              | destruct H as (_ & H1 & H2); discriminate].
    + split; intros H; [discriminate H|]. by destruct H as [? _].
  - (* one step on a neighbouring file *)
    intros Hc ->.
    rewrite (proj2 (Z.eqb_neq d_col 0)) by lia.
    rewrite (proj2 (Z.eqb_eq _ _) Hc), !Z.eqb_refl. simpl.
    destruct (Board.is_empty dest_piece); split; intros H;
      first [reflexivity | discriminate H].
  - (* any other delta *)
    intros Hforward Hdiagonal.
    destruct (Z.eqb_spec d_col 0), (Z.eqb_spec d_row forward),
      (Z.eqb_spec d_row (2 * forward)), (Z.eqb_spec (Z.abs d_col) 1);
      simpl; try discriminate; tauto.
Qed.

Lemma pawn_rules_witness :
  Board.validate_move initial_table 0%nat "e2" "e4" "&#9817;"
  = Return (true, EmptyString)
  ↔ 6 = Board.start_row white
    ∧ Board.is_empty (Board.get_piece_at initial_table 0%nat
                        (Board.location_of (6 + Board.direction white) 4)) = true
    ∧ Board.is_empty (Board.get_piece_at initial_table 0%nat "e4") = true.
Proof.
  apply (pawn_rules initial_table 0%nat "e2" "e4" "&#9817;" white 6 4 4 4);
    vm_compute; reflexivity.
Defined.

(** A white pawn on e3 with e4 and e5 empty may not go to e5. *)
Example pawn_e3_e5_rejected :
  let db := moved initial_table 0%nat "e2" "e3" "&#9817;" in
  Board.get_piece_at db 0%nat "e3" = "&#9817;"
  ∧ Board.get_piece_at db 0%nat "e4" = "&nbsp;"
  ∧ Board.get_piece_at db 0%nat "e5" = "&nbsp;"
  ∧ Board.validate_move db 0%nat "e3" "e5" "&#9817;"
    = Return (false, "Illegal pawn move.").
Proof. vm_compute. done. Qed.

(** ** C6: the path of a sliding piece *)

(** C6.  [is_path_clear] returns, and it answers true iff every square
    strictly between source and destination is empty: the squares at steps
    1 to steps - 1 from the source, by increments of the deltas divided by
    steps, the larger of their absolute values.  With steps at most 1 the
    path is clear.  For an aligned pair the increments are the signs of
    the deltas.  When the path is not clear a rook, bishop or queen move is
    rejected, whatever the destination holds. *)
Theorem path_clear_iff db user source destination src_row src_col dst_row dst_col :
  Board.square_to_indices source = Return (src_row, src_col) →
  Board.square_to_indices destination = Return (dst_row, dst_col) →
  let d_row := dst_row - src_row in
  let d_col := dst_col - src_col in
  let steps := Z.max (Z.abs d_row) (Z.abs d_col) in
  let between step :=
    Board.get_piece_at db user
      (Board.location_of (src_row + step * (d_row `div` steps))
                         (src_col + step * (d_col `div` steps))) in
  ∃ clear : bool,
    Board.is_path_clear db user source destination = Return clear
    ∧ (clear = true
       ↔ ∀ step, 1 ≤ step < steps → Board.is_empty (between step) = true)
    ∧ (steps ≤ 1 → clear = true)
    ∧ (d_row = 0 ∨ d_col = 0 ∨ Z.abs d_row = Z.abs d_col → 0 < steps →
       d_row `div` steps = Z.sgn d_row ∧ d_col `div` steps = Z.sgn d_col)
    ∧ (clear = false →
       ∀ piece piece_type piece_color,
         Board.PIECE_MAPPING !! piece = Some (piece_type, piece_color) →
         piece_type ∈ [rook; bishop; queen] →
         ∃ message,
           Board.validate_move db user source destination piece
           = Return (false, message)).
Proof.
  intros Hs Hd d_row d_col steps between.
  destruct (is_path_clear_spec db user _ _ _ _ _ _ Hs Hd) as (clear & Hc & Hiff).
  exists clear. split; [done|]. split; [done|]. split.
  { intros Hle. apply Hiff. intros step Hstep. fold d_row d_col steps in Hstep. lia. }
  split; [apply aligned_increment|].
  intros -> piece piece_type piece_color Hp Hkind.
  rewrite (validate_move_unfold _ _ _ _ _ _ _ _ _ _ _ Hs Hd Hp).
  destruct (Board.captures_own _ _); [eauto|].
  unfold Board.shape_rules, Py.and_then. rewrite Hc.
  repeat (apply elem_of_cons in Hkind as [->|Hkind]);
    [..|by apply elem_of_nil in Hkind];
    case_match; simpl; eauto.
Qed.

Lemma path_clear_iff_witness :
  ∃ clear : bool,
    Board.is_path_clear initial_table 0%nat "a1" "a8" = Return clear
    ∧ (clear = true
       ↔ ∀ step, 1 ≤ step < Z.max (Z.abs (0 - 7)) (Z.abs (0 - 0)) →
           Board.is_empty
             (Board.get_piece_at initial_table 0%nat
                (Board.location_of
                   (7 + step * ((0 - 7) `div` Z.max (Z.abs (0 - 7)) (Z.abs (0 - 0))))
                   (0 + step * ((0 - 0) `div` Z.max (Z.abs (0 - 7)) (Z.abs (0 - 0))))))
           = true)
    ∧ (Z.max (Z.abs (0 - 7)) (Z.abs (0 - 0)) ≤ 1 → clear = true)
    ∧ (0 - 7 = 0 ∨ 0 - 0 = 0 ∨ Z.abs (0 - 7) = Z.abs (0 - 0) →
       0 < Z.max (Z.abs (0 - 7)) (Z.abs (0 - 0)) →
       (0 - 7) `div` Z.max (Z.abs (0 - 7)) (Z.abs (0 - 0)) = Z.sgn (0 - 7)
       ∧ (0 - 0) `div` Z.max (Z.abs (0 - 7)) (Z.abs (0 - 0)) = Z.sgn (0 - 0))
    ∧ (clear = false →
       ∀ piece piece_type piece_color,
         Board.PIECE_MAPPING !! piece = Some (piece_type, piece_color) →
         piece_type ∈ [rook; bishop; queen] →
         ∃ message,
           Board.validate_move initial_table 0%nat "a1" "a8" piece
           = Return (false, message)).
Proof.
  apply (path_clear_iff initial_table 0%nat "a1" "a8" 7 0 0 0);
    vm_compute; reflexivity.
Defined.

(** The rook on a1 cannot reach a8 past the pawn on a2. *)
Example rook_a1_a8_blocked :
  Board.get_piece_at initial_table 0%nat "a2" = "&#9817;"
  ∧ Board.is_path_clear initial_table 0%nat "a1" "a8" = Return false
  ∧ Board.validate_move initial_table 0%nat "a1" "a8" "&#9814;"
    = Return (false, "Illegal rook move or path is blocked.")
  ∧ (apply_move 0%nat "a1" "a8" white initial_table).2
    = Return (white, page initial_table 0%nat white
                (Some "Illegal rook move or path is blocked.") false).
Proof. vm_compute. done. Qed.

(** ** C7: the rook *)

(** C7 as stated fails.  On the board of a new game, white to move, the
    rook on a1 going to a2 changes its row only and has no square to
    cross, yet the move is rejected: a2 holds a white pawn. *)
Lemma rook_a1_a2_not_as_stated :
  initial_table !! (0%nat, "a1") = Some "&#9814;"
  ∧ Board.PIECE_MAPPING !! "&#9814;" = Some (rook, white)
  ∧ ¬ rook_rule_as_stated initial_table 0%nat "a1" "a2" white.
Proof.
  split; [by vm_compute|]. split; [by vm_compute|].
  intros H. specialize (H 7 0 6 0 eq_refl eq_refl). cbv zeta in H.
  destruct H as [_ H].
  assert (accepts (apply_move 0%nat "a1" "a2" white initial_table).2 = false)
    as Hrej by (by vm_compute).
  rewrite H in Hrej; [done|]. split; [right; lia|]. by vm_compute.
Qed.

(** C7, amended.  For squares in the spelling of the table, a rook on the
    source and its owner to move, the move is accepted iff the destination
    holds no piece of the rook's colour, exactly one of the two deltas is
    zero, and the path is clear. *)
Theorem rook_move_accepted_iff db user piece turn src_row src_col dst_row dst_col :
  0 ≤ src_row < 8 → 0 ≤ src_col < 8 → 0 ≤ dst_row < 8 → 0 ≤ dst_col < 8 →
  let source := Board.location_of src_row src_col in
  let destination := Board.location_of dst_row dst_col in
  let d_row := dst_row - src_row in
  let d_col := dst_col - src_col in
  db !! (user, source) = Some piece →
  Board.PIECE_MAPPING !! piece = Some (rook, turn) →
  accepts (apply_move user source destination turn db).2 = true
  ↔ Board.captures_own (Board.get_piece_at db user destination) turn = false
    ∧ ((d_row = 0 ∧ d_col ≠ 0) ∨ (d_row ≠ 0 ∧ d_col = 0))
    ∧ Board.is_path_clear db user source destination = Return true.
Proof.
  intros Hsr Hsc Hdr Hdc source destination d_row d_col Hsrc Hp.
  destruct (location_of_parse src_row src_col Hsr Hsc) as [Hs Hcs].
  destruct (location_of_parse dst_row dst_col Hdr Hdc) as [Hd Hcd].
  fold source in Hs, Hcs. fold destination in Hd, Hcd.
  rewrite apply_move_unfold. unfold ChessForm. rewrite Hcs, Hcd. simpl.
  assert (Board.get_piece_at db user source = piece) as Hget
    by (unfold Board.get_piece_at; by rewrite Hsrc).
  rewrite Hget, Hp.
  destruct (PIECE_MAPPING_keys _ _ _ Hp) as [Hempty ->].
  rewrite bool_decide_false by (by intros []).
  rewrite (validate_move_unfold _ _ _ _ _ _ _ _ _ _ _ Hs Hd Hp).
  fold d_row d_col.
  destruct (Board.captures_own _ _) eqn:Hown.
  { simpl. split; [done|]. by intros [? _]. }
  assert (¬ (d_row = 0 ∧ d_col = 0)) as Hnull.
  { intros [Hr Hc].
    assert (destination = source) as Heq
      by (subst source destination; f_equal; lia).
    rewrite Heq, Hget in Hown. unfold Board.captures_own in Hown.
    rewrite Hempty, Hp in Hown. simpl in Hown.
    by rewrite bool_decide_true in Hown. }
  destruct (is_path_clear_returns db user _ _ _ _ _ _ Hs Hd) as [clear Hclear].
  unfold Board.shape_rules, Py.and_then. rewrite Hclear.
  destruct (Z.eqb_spec d_row 0), (Z.eqb_spec d_col 0), clear; simpl;
    split; try done; try tauto; try lia;
    intros (_ & H1 & H2); try done; lia.
Qed.

Lemma rook_move_accepted_iff_witness :
  accepts (apply_move 0%nat (Board.location_of 7 0) (Board.location_of 6 0)
             white initial_table).2 = true
  ↔ Board.captures_own
      (Board.get_piece_at initial_table 0%nat (Board.location_of 6 0)) white
    = false
    ∧ ((6 - 7 = 0 ∧ 0 - 0 ≠ 0) ∨ (6 - 7 ≠ 0 ∧ 0 - 0 = 0))
    ∧ Board.is_path_clear initial_table 0%nat
        (Board.location_of 7 0) (Board.location_of 6 0) = Return true.
Proof.
  apply (rook_move_accepted_iff initial_table 0%nat "&#9814;" white 7 0 6 0);
    try lia; vm_compute; reflexivity.
Defined.

(** ** C8: a capture *)

(** C8.  After an accepted move the destination holds the piece that
    stood on the source and nothing else, the source is empty, and every
    other row is as before; an enemy piece that stood on the destination
    is therefore gone. *)
Theorem capture_replaces_occupant db user raw_source raw_destination turn
    new_turn page_data :
  (apply_move user raw_source raw_destination turn db).2
  = Return (new_turn, page_data) →
  accepted page_data = true →
  let db' := (apply_move user raw_source raw_destination turn db).1 in
  ∃ source destination piece,
    ChessForm raw_source raw_destination = Return (Some (source, destination))
    ∧ db !! (user, source) = Some piece
    ∧ db' !! (user, destination) = Some piece
    ∧ Board.get_piece_at db' user source = "&nbsp;"
    ∧ (∀ occupant occupant_type,
         db !! (user, destination) = Some occupant →
         Board.PIECE_MAPPING !! occupant
         = Some (occupant_type, other_color turn) →
         occupant ≠ piece)
    ∧ (∀ key, key ≠ (user, source) → key ≠ (user, destination) →
         db' !! key = db !! key).
Proof.
  destruct (apply_move_outcome user raw_source raw_destination turn db)
    as [msg| |message|s d piece message Hform Hsrc [pt Hp] Hv]; simpl; [done|..].
  1-2: by intros [= <- <-].
  intros _ _.
  pose proof (validate_move_distinct _ _ _ _ _ _ Hsrc Hv) as Hne.
  destruct (moved_lookup db user s d piece Hne) as (Hd' & Hs' & Hother).
  exists s, d, piece. split; [done|]. split; [done|]. split; [done|].
  split; [unfold Board.get_piece_at; by rewrite Hs'|]. split; [|done].
  intros occupant occupant_type _ Hocc ->.
  rewrite Hp in Hocc. by destruct turn.
Qed.

Lemma capture_replaces_occupant_witness :
  let db' := (apply_move 0%nat "e4" "d5" white table_e4_d5).1 in
  ∃ source destination piece,
    ChessForm "e4" "d5" = Return (Some (source, destination))
    ∧ table_e4_d5 !! (0%nat, source) = Some piece
    ∧ db' !! (0%nat, destination) = Some piece
    ∧ Board.get_piece_at db' 0%nat source = "&nbsp;"
    ∧ (∀ occupant occupant_type,
         table_e4_d5 !! (0%nat, destination) = Some occupant →
         Board.PIECE_MAPPING !! occupant
         = Some (occupant_type, other_color white) →
         occupant ≠ piece)
    ∧ (∀ key, key ≠ (0%nat, source) → key ≠ (0%nat, destination) →
         db' !! key = table_e4_d5 !! key).
Proof.
  apply (capture_replaces_occupant table_e4_d5 0%nat "e4" "d5" white black
           (page (moved table_e4_d5 0%nat "e4" "d5" "&#9817;") 0%nat white
              None false)).
  - vm_compute. reflexivity.
  - vm_compute. reflexivity.
Defined.

(** ** C9: the case of the file letter *)

(** C9.  Squares should be read without regard to the case of the file
    letter.  [validate_square] and [square_to_indices] do so, the lookups
    of rows do not: on the board of a new game, white to move, e2 to e4 is
    accepted while E2 to e4 is rejected for want of a piece on the
    source. *)
(** A square spelled with an uppercase file passes the form and has the
    indices of the lowercase spelling, yet the table has no row for it. *)
Theorem uppercase_source_finds_no_piece :
  validate_square "E2" = Return tt
  ∧ Board.square_to_indices "E2" = Board.square_to_indices "e2"
  ∧ (apply_move 0%nat "e2" "e4" white initial_table).2
    = Return (black,
              page (moved initial_table 0%nat "e2" "e4" "&#9817;") 0%nat white
                None false)
  ∧ (apply_move 0%nat "E2" "e4" white initial_table).2
    = Return (white,
              page initial_table 0%nat white
                (Some "No piece at the source square.") false).
Proof. repeat split; vm_compute; reflexivity. Qed.

(** ** C10: the null move *)

(** C10.  A move from a square to itself, by a piece of the colour to
    move, is rejected with the own-piece message, whatever the kind of the
    piece, and the table and the turn are unchanged. *)
Theorem null_move_rejected db user raw square piece piece_type turn :
  clean_field raw = Return (Some square) →
  db !! (user, square) = Some piece →
  Board.PIECE_MAPPING !! piece = Some (piece_type, turn) →
  apply_move user raw raw turn db
  = (db, Return (turn, page db user turn
                         (Some "Cannot capture your own piece.") false)).
Proof.
  intros Hclean Hsq Hp. rewrite apply_move_unfold.
  unfold ChessForm. rewrite Hclean. simpl.
  apply clean_field_parses in Hclean as (_ & row & col & Hparse).
  assert (Board.get_piece_at db user square = piece) as Hget
    by (unfold Board.get_piece_at; by rewrite Hsq).
  rewrite Hget, Hp.
  destruct (PIECE_MAPPING_keys _ _ _ Hp) as [Hempty ->].
  rewrite bool_decide_false by (by intros []).
  rewrite (validate_move_unfold _ _ _ _ _ _ _ _ _ _ _ Hparse Hparse Hp), Hget.
  unfold Board.captures_own. rewrite Hempty, Hp. simpl.
  by rewrite bool_decide_true.
Qed.

Lemma null_move_rejected_witness :
  apply_move 0%nat "c1" "c1" white initial_table
  = (initial_table,
     Return (white, page initial_table 0%nat white
                      (Some "Cannot capture your own piece.") false)).
Proof.
  apply (null_move_rejected initial_table 0%nat "c1" "c1" "&#9815;" bishop white).
  - vm_compute. reflexivity.
  - vm_compute. reflexivity.
  - vm_compute. reflexivity.
Defined.

(** * Further properties of the code *)

(** ** Squares and the form *)

Lemma chr_ord c : Py.chr (Py.ord c) = c.
Proof. unfold Py.chr, Py.ord. by rewrite N2Z.id, ascii_N_embedding. Qed.

Lemma ord_chr n : 0 ≤ n < 256 → Py.ord (Py.chr n) = n.
Proof.
  intros Hn. unfold Py.ord, Py.chr.
  rewrite N_ascii_embedding by lia. lia.
Qed.

Lemma ord_bound c : 0 ≤ Py.ord c < 256.
Proof.
  unfold Py.ord. pose proof (N_ascii_bounded c). lia.
Qed.

Lemma int_inv c n : Py.int c = Return n → 0 ≤ n ≤ 9 ∧ Py.ord c = n + 48.
Proof. unfold Py.int. case_match; [|done]. intros [= <-]. lia. Qed.


Lemma files_letter c :
  0 ≤ Py.ord c - 97 < 8 → Py.contains "abcdefgh" c = true.
Proof.
  intros Hc. rewrite <- (chr_ord c).
  assert (Py.ord c = 97 ∨ Py.ord c = 98 ∨ Py.ord c = 99 ∨ Py.ord c = 100
          ∨ Py.ord c = 101 ∨ Py.ord c = 102 ∨ Py.ord c = 103
          ∨ Py.ord c = 104) as H by lia.
  repeat destruct H as [H|H]; rewrite H; reflexivity.
Qed.

Lemma file_letter_cases file :
  Py.contains "abcdefgh" (Py.lower file) = true →
  65 ≤ Py.ord file ≤ 72 ∨ 97 ≤ Py.ord file ≤ 104.
Proof.
  intros H. apply contains_files in H. revert H. unfold Py.lower.
  pose proof (ord_bound file).
  case_match eqn:Hup.
  - rewrite ord_chr by lia. lia.
  - lia.
Qed.

Lemma isspace_printable c : 33 ≤ Py.ord c ≤ 132 → Py.isspace c = false.
Proof.
  intros Hc. unfold Py.isspace.
  destruct (Z.leb_spec 9 (Py.ord c)), (Z.leb_spec (Py.ord c) 13),
    (Z.leb_spec 28 (Py.ord c)), (Z.leb_spec (Py.ord c) 32),
    (Z.eqb_spec (Py.ord c) 133), (Z.eqb_spec (Py.ord c) 160);
    simpl; first [reflexivity | lia].
Qed.

Lemma strip_square file rank :
  Py.isspace file = false → Py.isspace rank = false →
  Py.strip (String file (String rank EmptyString))
  = String file (String rank EmptyString).
Proof.
  intros Hf Hr. unfold Py.strip. cbn [Py.lstrip]. rewrite Hf.
  cbn [Py.rstrip]. by rewrite Hr.
Qed.

Lemma lstrip_all_space s : all_space s = true → Py.lstrip s = EmptyString.
Proof.
  induction s as [|c t IH]; simpl; [done|].
  intros [Hc Ht]%andb_true_iff. rewrite Hc. by apply IH.
Qed.

Lemma rstrip_all_space s : all_space s = true → Py.rstrip s = EmptyString.
Proof.
  induction s as [|c t IH]; simpl; [done|].
  intros [Hc Ht]%andb_true_iff. by rewrite IH, Hc.
Qed.

Lemma lstrip_app_space left s :
  all_space left = true → Py.lstrip (left +:+ s) = Py.lstrip s.
Proof.
  induction left as [|c t IH]; simpl; [done|].
  intros [Hc Ht]%andb_true_iff. rewrite Hc. by apply IH.
Qed.

Lemma rstrip_app_space s right :
  all_space right = true → Py.rstrip (s +:+ right) = Py.rstrip s.
Proof.
  intros Hr. induction s as [|c t IH]; simpl.
  - by apply rstrip_all_space.
  - by rewrite IH.
Qed.

Lemma strip_app_space s right :
  all_space right = true → Py.strip (s +:+ right) = Py.strip s.
Proof.
  intros Hr. unfold Py.strip. induction s as [|c t IH]; simpl.
  - change (EmptyString +:+ right) with right.
    by rewrite (lstrip_all_space _ Hr).
  - destruct (Py.isspace c); [done|].
    change (String c (t +:+ right)) with (String c t +:+ right).
    by apply rstrip_app_space.
Qed.





(** X3.  The validator of the form and the parser of the model accept the
    same strings: [validate_square] passes exactly when
    [square_to_indices] returns. *)
Theorem validate_square_iff_parses value :
  validate_square value = Return tt
  ↔ ∃ row col, Board.square_to_indices value = Return (row, col).
Proof.
  split; [apply validate_square_parses|].
  intros (row & col & Hparse).
  apply square_to_indices_inv in Hparse as (Hb & file & rank & -> & Hcol & Hint).
  unfold validate_square.
  rewrite files_letter by lia. simpl negb. cbv iota.
  pose proof Hint as Hint'. apply int_inv in Hint' as [Hn Hord].
  unfold Py.isdigit.
  rewrite (proj2 (andb_true_iff _ _)) by (split; lia). simpl.
  rewrite Hint. simpl.
  rewrite (proj2 (negb_false_iff _)); [done|]. lia.
Qed.

Lemma validate_square_iff_parses_witness :
  validate_square "E2" = Return tt.
Proof.
  apply (proj2 (validate_square_iff_parses "E2")).
  exists 6, 4. reflexivity.
Defined.



(** X5.  [validate_square] raises a [ValueError], which is no validation
    error, exactly for a file from a to h in either case followed by a
    superscript one, two or three: these count as digits for [isdigit]
    and [int] does not convert them. *)
Theorem superscript_rank_raises value :
  (∃ msg, validate_square value = Raise (ValueError msg))
  ↔ ∃ file rank,
      value = String file (String rank EmptyString)
      ∧ Py.contains "abcdefgh" (Py.lower file) = true
      ∧ Py.ord rank ∈ [178; 179; 185].
Proof.
  unfold validate_square, Py.isdigit, Py.int. split.
  - intros [msg H].
    destruct value as [|file [|rank [|? ?]]]; try done.
    exists file, rank. split; [done|].
    destruct (Py.contains _ _); [|done]. split; [done|].
    simpl in H.
    destruct ((48 <=? Py.ord rank) && (Py.ord rank <=? 57)) eqn:Hd.
    + simpl in H. by destruct (negb _).
    + simpl in H.
      rewrite !elem_of_cons.
      destruct (Z.eqb_spec (Py.ord rank) 178); [tauto|].
      destruct (Z.eqb_spec (Py.ord rank) 179); [tauto|].
      destruct (Z.eqb_spec (Py.ord rank) 185); [tauto|].
      done.
  - intros (file & rank & -> & -> & Hrank). eexists. simpl.
    rewrite !elem_of_cons, elem_of_nil in Hrank.
    destruct Hrank as [->|[->|[->|[]]]]; reflexivity.
Qed.

Lemma superscript_rank_raises_witness :
  ∃ msg,
    validate_square (String "e" (String (Py.chr 178) EmptyString))
    = Raise (ValueError msg).
Proof.
  apply (proj2 (superscript_rank_raises
                  (String "e" (String (Py.chr 178) EmptyString)))).
  exists "e"%char, (Py.chr 178). split; [reflexivity|].
  split; [reflexivity|]. vm_compute. left.
Defined.

(** X6.  Such a source makes the view raise the [ValueError] of the
    validator instead of reporting a field error, whatever the
    destination, the turn and the table; the table is as it was. *)
Theorem superscript_rank_server_error file rank destination user turn db :
  Py.contains "abcdefgh" (Py.lower file) = true →
  Py.ord rank ∈ [178; 179; 185] →
  let source := String file (String rank EmptyString) in
  ∃ msg,
    validate_square source = Raise (ValueError msg)
    ∧ apply_move user source destination turn db = (db, Raise (ValueError msg)).
Proof.
  intros Hfile Hrank source.
  exists "invalid literal for int() with base 10".
  assert (validate_square source
          = Raise (ValueError "invalid literal for int() with base 10")) as Hv.
  { subst source. unfold validate_square, Py.isdigit, Py.int. rewrite Hfile.
    rewrite !elem_of_cons, elem_of_nil in Hrank.
    destruct Hrank as [->|[->|[->|[]]]]; reflexivity. }
  split; [done|]. subst source.
  rewrite apply_move_unfold. unfold ChessForm, clean_field.
  rewrite strip_square.
  - rewrite Hv. reflexivity.
  - apply file_letter_cases in Hfile. apply isspace_printable. lia.
  - rewrite !elem_of_cons, elem_of_nil in Hrank. unfold Py.isspace.
    destruct Hrank as [->|[->|[->|[]]]]; reflexivity.
Qed.

Lemma superscript_rank_server_error_witness :
  ∃ msg,
    validate_square (String "e" (String (Py.chr 178) EmptyString))
    = Raise (ValueError msg)
    ∧ apply_move 0%nat (String "e" (String (Py.chr 178) EmptyString)) "e4" white
        initial_table
      = (initial_table, Raise (ValueError msg)).
Proof.
  apply (superscript_rank_server_error "e"%char (Py.chr 178) "e4" 0%nat white
           initial_table).
  - reflexivity.
  - vm_compute. left.
Defined.

(** X7.  A field of the form ignores whitespace around its value, and a
    cleaned value is a square in its final form: cleaning it again gives
    it back, and [square_to_indices] accepts it. *)
Theorem clean_field_ignores_whitespace left raw right :
  all_space left = true → all_space right = true →
  Py.strip (left +:+ raw +:+ right) = Py.strip raw
  ∧ clean_field (left +:+ raw +:+ right) = clean_field raw
  ∧ ∀ value, clean_field raw = Return (Some value) →
      clean_field value = Return (Some value)
      ∧ ∃ row col, Board.square_to_indices value = Return (row, col).
Proof.
  intros Hl Hr.
  assert (Py.strip (left +:+ raw +:+ right) = Py.strip raw) as Hstrip.
  { unfold Py.strip. rewrite lstrip_app_space by done.
    by apply strip_app_space. }
  split; [done|]. split; [unfold clean_field; by rewrite Hstrip|].
  intros value Hclean. split; [|by apply clean_field_parses in Hclean as [_ ?]].
  revert Hclean. unfold clean_field.
  destruct (String.eqb_spec (Py.strip raw) EmptyString) as [|Hne]; [done|].
  destruct (validate_square (Py.strip raw)) as [[]|e] eqn:Hv; [|by destruct e].
  intros [= <-]. unfold validate_square in Hv.
  destruct (Py.strip raw) as [|file [|rank [|? ?]]]; try done.
  destruct (Py.contains _ _) eqn:Hfile; [|done]. simpl in Hv.
  destruct (Py.isdigit rank); [|done]. simpl in Hv.
  destruct (Py.int rank) as [n|] eqn:Hint; [|done]. simpl in Hv.
  destruct (negb _) eqn:Hn; [done|]. apply negb_false_iff in Hn.
  apply int_inv in Hint as [_ Hord]. apply file_letter_cases in Hfile.
  rewrite strip_square by (apply isspace_printable; lia).
  rewrite (proj2 (String.eqb_neq _ _)) by done.
  fold (validate_square (String file (String rank EmptyString))).
  assert (validate_square (String file (String rank EmptyString)) = Return tt)
    as ->; [|done].
  apply validate_square_iff_parses.
  unfold Board.square_to_indices, Py.int.
  rewrite (proj2 (andb_true_iff _ _)) by (split; lia).
  eexists _, _. rewrite (proj2 (negb_false_iff _)); [done|].
  change (Py.ord "a") with 97.
  assert (0 ≤ Py.ord (Py.lower file) - 97 < 8); [|lia].
  unfold Py.lower. pose proof (ord_bound file).
  case_match; [rewrite ord_chr by lia|]; lia.
Qed.

Lemma clean_field_ignores_whitespace_witness :
  Py.strip (" " +:+ "e2" +:+ "  ") = Py.strip "e2"
  ∧ clean_field (" " +:+ "e2" +:+ "  ") = clean_field "e2"
  ∧ ∀ value, clean_field "e2" = Return (Some value) →
      clean_field value = Return (Some value)
      ∧ ∃ row col, Board.square_to_indices value = Return (row, col).
Proof.
  apply (clean_field_ignores_whitespace " " "e2" "  "); reflexivity.
Defined.

(** X8.  An empty or blank field and a value [validate_square] refuses
    are field errors, and when either field has one the view sends the
    form back: no error message, the table and the turn as they were. *)
Theorem malformed_square_is_a_form_error user raw_source raw_destination
    turn db :
  (∀ raw, all_space raw = true → clean_field raw = Return None)
  ∧ (∀ raw msg, validate_square (Py.strip raw) = Raise (ValidationError msg) →
       clean_field raw = Return None)
  ∧ (∀ cleaned_source cleaned_destination,
       clean_field raw_source = Return cleaned_source →
       clean_field raw_destination = Return cleaned_destination →
       cleaned_source = None ∨ cleaned_destination = None →
       apply_move user raw_source raw_destination turn db
       = (db, Return (turn, page db user turn None true))).
Proof.
  split; [|split].
  - intros raw Hspace. unfold clean_field, Py.strip.
    by rewrite (lstrip_all_space _ Hspace).
  - intros raw msg Hv. unfold clean_field. rewrite Hv. by case_match.
  - intros cs cd Hs Hd Hnone. rewrite apply_move_unfold.
    unfold ChessForm. rewrite Hs, Hd.
    destruct Hnone as [-> | ->]; [done|]. by destruct cs.
Qed.

Lemma malformed_square_is_a_form_error_witness :
  apply_move 0%nat "e2" "z9" white initial_table
  = (initial_table, Return (white, page initial_table 0%nat white None true)).
Proof.
  apply (proj2 (proj2 (malformed_square_is_a_form_error 0%nat "e2" "z9" white
                         initial_table)) (Some "e2") None);
    first [reflexivity | by right].
Defined.

(** ** [validate_move] and the other pieces *)



(** When the view accepts the move of a piece that stands on the source
    and is of the colour to move. *)
Lemma apply_move_accepts_iff db user raw_source raw_destination source
    destination piece piece_type turn src_row src_col dst_row dst_col :
  ChessForm raw_source raw_destination = Return (Some (source, destination)) →
  Board.square_to_indices source = Return (src_row, src_col) →
  Board.square_to_indices destination = Return (dst_row, dst_col) →
  db !! (user, source) = Some piece →
  Board.PIECE_MAPPING !! piece = Some (piece_type, turn) →
  accepts (apply_move user raw_source raw_destination turn db).2 = true
  ↔ Board.captures_own (Board.get_piece_at db user destination) turn = false
    ∧ ∃ message,
        Board.shape_rules db user source destination piece_type turn
          src_row src_col (dst_row - src_row) (dst_col - src_col)
          (Board.get_piece_at db user destination)
        = Return (true, message).
Proof.
  intros Hform Hs Hd Hsrc Hp.
  rewrite apply_move_unfold, Hform. cbv zeta.
  assert (Board.get_piece_at db user source = piece) as Hget
    by (unfold Board.get_piece_at; by rewrite Hsrc).
  rewrite Hget, Hp.
  destruct (PIECE_MAPPING_keys _ _ _ Hp) as [_ ->].
  rewrite bool_decide_false by (by intros []).
  rewrite (validate_move_unfold _ _ _ _ _ _ _ _ _ _ _ Hs Hd Hp).
  destruct (Board.captures_own _ _).
  { simpl. split; [done|]. by intros [? _]. }
  destruct (shape_rules_returns db user source destination piece_type turn
              src_row src_col dst_row dst_col (dst_row - src_row)
              (dst_col - src_col) (Board.get_piece_at db user destination)
              Hs Hd) as (valid & message & ->).
  destruct valid; simpl.
  - split; [|done]. intros _. split; [done|]. by exists message.
  - split; [done|]. by intros [_ [? [=]]].
Qed.

(** X10.  A knight of the colour to move is moved exactly when the
    destination holds no piece of its colour and the deltas are 1 and 2 in
    absolute value, in either order; what stands between plays no part. *)
Theorem knight_move_accepted_iff db user raw_source raw_destination source
    destination piece turn src_row src_col dst_row dst_col :
  ChessForm raw_source raw_destination = Return (Some (source, destination)) →
  Board.square_to_indices source = Return (src_row, src_col) →
  Board.square_to_indices destination = Return (dst_row, dst_col) →
  db !! (user, source) = Some piece →
  Board.PIECE_MAPPING !! piece = Some (knight, turn) →
  let d_row := dst_row - src_row in
  let d_col := dst_col - src_col in
  accepts (apply_move user raw_source raw_destination turn db).2 = true
  ↔ Board.captures_own (Board.get_piece_at db user destination) turn = false
    ∧ ((Z.abs d_row = 1 ∧ Z.abs d_col = 2)
       ∨ (Z.abs d_row = 2 ∧ Z.abs d_col = 1)).
Proof.
  intros Hform Hs Hd Hsrc Hp d_row d_col.
  rewrite (apply_move_accepts_iff _ _ _ _ _ _ _ _ _ _ _ _ _ Hform Hs Hd Hsrc Hp).
  fold d_row d_col. unfold Board.shape_rules.
  apply and_iff_compat_l.
  case_bool_decide as Hshape; rewrite !elem_of_cons, elem_of_nil in Hshape.
  - split; [intros _|by eexists].
    destruct Hshape as [[= -> ->]|[[= -> ->]|[]]]; auto.
  - split; [by intros [? [=]]|]. intros Hk. exfalso. apply Hshape.
    destruct Hk as [[-> ->]|[-> ->]]; auto.
Qed.

Lemma knight_move_accepted_iff_witness :
  accepts (apply_move 0%nat "g1" "f3" white initial_table).2 = true
  ↔ Board.captures_own (Board.get_piece_at initial_table 0%nat "f3") white
    = false
    ∧ ((Z.abs (5 - 7) = 1 ∧ Z.abs (5 - 6) = 2)
       ∨ (Z.abs (5 - 7) = 2 ∧ Z.abs (5 - 6) = 1)).
Proof.
  apply (knight_move_accepted_iff initial_table 0%nat "g1" "f3" "g1" "f3"
           "&#9816;" white 7 6 5 5); vm_compute; reflexivity.
Defined.

(** X11.  A king of the colour to move is moved exactly when the
    destination holds no piece of its colour and is a neighbouring square;
    no square is looked at for an attack. *)
Theorem king_move_accepted_iff db user raw_source raw_destination source
    destination piece turn src_row src_col dst_row dst_col :
  ChessForm raw_source raw_destination = Return (Some (source, destination)) →
  Board.square_to_indices source = Return (src_row, src_col) →
  Board.square_to_indices destination = Return (dst_row, dst_col) →
  db !! (user, source) = Some piece →
  Board.PIECE_MAPPING !! piece = Some (king, turn) →
  let d_row := dst_row - src_row in
  let d_col := dst_col - src_col in
  accepts (apply_move user raw_source raw_destination turn db).2 = true
  ↔ Board.captures_own (Board.get_piece_at db user destination) turn = false
    ∧ Z.abs d_row ≤ 1 ∧ Z.abs d_col ≤ 1 ∧ (d_row ≠ 0 ∨ d_col ≠ 0).
Proof.
  intros Hform Hs Hd Hsrc Hp d_row d_col.
  rewrite (apply_move_accepts_iff _ _ _ _ _ _ _ _ _ _ _ _ _ Hform Hs Hd Hsrc Hp).
  fold d_row d_col. unfold Board.shape_rules.
  apply and_iff_compat_l.
  destruct (Z.eqb_spec (Z.max (Z.abs d_row) (Z.abs d_col)) 1) as [Hk|Hk].
  - split; [intros _; lia|by eexists].
  - split; [by intros [? [=]]|]. intros ?. lia.
Qed.

Lemma king_move_accepted_iff_witness :
  accepts (apply_move 0%nat "e1" "e2" white initial_table).2 = true
  ↔ Board.captures_own (Board.get_piece_at initial_table 0%nat "e2") white
    = false
    ∧ Z.abs (6 - 7) ≤ 1 ∧ Z.abs (4 - 4) ≤ 1 ∧ (6 - 7 ≠ 0 ∨ 4 - 4 ≠ 0).
Proof.
  apply (king_move_accepted_iff initial_table 0%nat "e1" "e2" "e1" "e2"
           "&#9812;" white 7 4 6 4); vm_compute; reflexivity.
Defined.

(** X12.  A bishop of the colour to move is moved exactly when the
    destination holds no piece of its colour, the deltas are equal in
    absolute value and the path is clear. *)
Theorem bishop_move_accepted_iff db user raw_source raw_destination source
    destination piece turn src_row src_col dst_row dst_col :
  ChessForm raw_source raw_destination = Return (Some (source, destination)) →
  Board.square_to_indices source = Return (src_row, src_col) →
  Board.square_to_indices destination = Return (dst_row, dst_col) →
  db !! (user, source) = Some piece →
  Board.PIECE_MAPPING !! piece = Some (bishop, turn) →
  let d_row := dst_row - src_row in
  let d_col := dst_col - src_col in
  accepts (apply_move user raw_source raw_destination turn db).2 = true
  ↔ Board.captures_own (Board.get_piece_at db user destination) turn = false
    ∧ Z.abs d_row = Z.abs d_col
    ∧ Board.is_path_clear db user source destination = Return true.
Proof.
  intros Hform Hs Hd Hsrc Hp d_row d_col.
  rewrite (apply_move_accepts_iff _ _ _ _ _ _ _ _ _ _ _ _ _ Hform Hs Hd Hsrc Hp).
  fold d_row d_col. unfold Board.shape_rules, Py.and_then.
  apply and_iff_compat_l.
  destruct (is_path_clear_returns db user _ _ _ _ _ _ Hs Hd) as [clear ->].
  destruct (Z.eqb_spec (Z.abs d_row) (Z.abs d_col)), clear; simpl;
    split; try (by intros [? [=]]); try (by intros (? & [=])); try tauto;
    by eexists.
Qed.

Lemma bishop_move_accepted_iff_witness :
  accepts (apply_move 0%nat "f1" "c4" white table_e4_d5).2 = true
  ↔ Board.captures_own (Board.get_piece_at table_e4_d5 0%nat "c4") white
    = false
    ∧ Z.abs (4 - 7) = Z.abs (2 - 5)
    ∧ Board.is_path_clear table_e4_d5 0%nat "f1" "c4" = Return true.
Proof.
  apply (bishop_move_accepted_iff table_e4_d5 0%nat "f1" "c4" "f1" "c4"
           "&#9815;" white 7 5 4 2); vm_compute; reflexivity.
Defined.

(** X13.  A queen may go exactly where a rook or a bishop of her colour,
    moving between the same squares, might. *)
Theorem queen_is_rook_or_bishop db user source destination
    queen_piece rook_piece bishop_piece color src dst :
  Board.square_to_indices source = Return src →
  Board.square_to_indices destination = Return dst →
  Board.PIECE_MAPPING !! queen_piece = Some (queen, color) →
  Board.PIECE_MAPPING !! rook_piece = Some (rook, color) →
  Board.PIECE_MAPPING !! bishop_piece = Some (bishop, color) →
  let legal piece :=
    Board.validate_move db user source destination piece
    = Return (true, EmptyString) in
  legal queen_piece ↔ legal rook_piece ∨ legal bishop_piece.
Proof.
  destruct src as [src_row src_col], dst as [dst_row dst_col].
  intros Hs Hd Hq Hr Hb legal. subst legal. cbv beta.
  rewrite (validate_move_unfold _ _ _ _ _ _ _ _ _ _ _ Hs Hd Hq).
  rewrite (validate_move_unfold _ _ _ _ _ _ _ _ _ _ _ Hs Hd Hr).
  rewrite (validate_move_unfold _ _ _ _ _ _ _ _ _ _ _ Hs Hd Hb).
  destruct (Board.captures_own _ _); [by intuition|].
  unfold Board.shape_rules, Py.and_then.
  destruct (is_path_clear_returns db user _ _ _ _ _ _ Hs Hd) as [clear ->].
  destruct (Z.abs (dst_row - src_row) =? Z.abs (dst_col - src_col)),
    ((dst_row - src_row =? 0) || (dst_col - src_col =? 0)), clear; simpl;
    split; first [by intros [|] | by intros [=] | by auto].
Qed.

Lemma queen_is_rook_or_bishop_witness :
  Board.validate_move table_e4_d5 0%nat "d1" "g4" "&#9813;"
  = Return (true, EmptyString)
  ↔ Board.validate_move table_e4_d5 0%nat "d1" "g4" "&#9814;"
    = Return (true, EmptyString)
    ∨ Board.validate_move table_e4_d5 0%nat "d1" "g4" "&#9815;"
      = Return (true, EmptyString).
Proof.
  apply (queen_is_rook_or_bishop table_e4_d5 0%nat "d1" "g4"
           "&#9813;" "&#9814;" "&#9815;" white (7, 3) (4, 6));
    vm_compute; reflexivity.
Defined.

(** X14.  For a pair of squares on a line or a diagonal, the path is
    clear one way exactly when it is clear the other way. *)
Theorem is_path_clear_symmetric db user source destination
    src_row src_col dst_row dst_col :
  Board.square_to_indices source = Return (src_row, src_col) →
  Board.square_to_indices destination = Return (dst_row, dst_col) →
  let d_row := dst_row - src_row in
  let d_col := dst_col - src_col in
  d_row = 0 ∨ d_col = 0 ∨ Z.abs d_row = Z.abs d_col →
  Board.is_path_clear db user source destination
  = Board.is_path_clear db user destination source.
Proof.
  intros Hs Hd d_row d_col Haligned.
  destruct (is_path_clear_spec db user _ _ _ _ _ _ Hs Hd) as (there & -> & Hthere).
  destruct (is_path_clear_spec db user _ _ _ _ _ _ Hd Hs) as (back & -> & Hback).
  f_equal. apply eq_true_iff_eq. rewrite Hthere, Hback. clear Hthere Hback.
  fold d_row d_col.
  replace (src_row - dst_row) with (- d_row) by (subst d_row; lia).
  replace (src_col - dst_col) with (- d_col) by (subst d_col; lia).
  rewrite !Z.abs_opp.
  set (steps := Z.max (Z.abs d_row) (Z.abs d_col)).
  destruct (Z.le_gt_cases steps 1) as [Hle|Hgt].
  { split; intros _ step ?; lia. }
  destruct (aligned_increment d_row d_col Haligned ltac:(fold steps; lia))
    as [Hrow Hcol].
  destruct (aligned_increment (- d_row) (- d_col)
              ltac:(rewrite !Z.abs_opp; lia)
              ltac:(rewrite !Z.abs_opp; fold steps; lia)) as [Hrow' Hcol'].
  rewrite !Z.abs_opp in Hrow', Hcol'. fold steps in Hrow, Hcol, Hrow', Hcol'.
  rewrite Hrow, Hcol, Hrow', Hcol', !Z.sgn_opp.
  assert (d_row = steps * Z.sgn d_row) as Hdr by (subst steps; lia).
  assert (d_col = steps * Z.sgn d_col) as Hdc by (subst steps; lia).
  assert (∀ step,
            path_square dst_row dst_col (- Z.sgn d_row) (- Z.sgn d_col) step
            = path_square src_row src_col (Z.sgn d_row) (Z.sgn d_col)
                (steps - step)) as Hsame.
  { intros step. unfold path_square. f_equal; subst d_row d_col; nia. }
  split; intros H step Hstep.
  - rewrite Hsame. apply H. lia.
  - replace step with (steps - (steps - step)) by lia.
    rewrite <- Hsame. apply H. lia.
Qed.

Lemma is_path_clear_symmetric_witness :
  Board.is_path_clear initial_table 0%nat "a1" "a8"
  = Board.is_path_clear initial_table 0%nat "a8" "a1".
Proof.
  apply (is_path_clear_symmetric initial_table 0%nat "a1" "a8" 7 0 0 0);
    [reflexivity|reflexivity|]. right. left. reflexivity.
Defined.

(** ** [move_piece] and accepted moves *)



(** X16.  An accepted move moves a piece of the colour to move, to a
    different location that held no piece of that colour. *)
Theorem accepted_move_is_of_side_to_move db user raw_source raw_destination turn :
  accepts (apply_move user raw_source raw_destination turn db).2 = true →
  ∃ source destination piece piece_type,
    ChessForm raw_source raw_destination = Return (Some (source, destination))
    ∧ db !! (user, source) = Some piece
    ∧ Board.PIECE_MAPPING !! piece = Some (piece_type, turn)
    ∧ Board.captures_own (Board.get_piece_at db user destination) turn = false
    ∧ source ≠ destination.
Proof.
  destruct (apply_move_outcome user raw_source raw_destination turn db)
    as [msg| |message|s d piece message Hform Hsrc [pt Hp] Hv]; simpl; try done.
  intros _. exists s, d, piece, pt.
  split; [done|]. split; [done|]. split; [done|].
  split; [|by eapply validate_move_distinct].
  apply validate_move_true in Hv
    as (? & ? & ? & ? & pt' & pc & _ & _ & Hp' & Hown & _).
  rewrite Hp in Hp'. by injection Hp' as <- <-.
Qed.

Lemma accepted_move_is_of_side_to_move_witness :
  ∃ source destination piece piece_type,
    ChessForm "g1" "f3" = Return (Some (source, destination))
    ∧ initial_table !! (0%nat, source) = Some piece
    ∧ Board.PIECE_MAPPING !! piece = Some (piece_type, white)
    ∧ Board.captures_own (Board.get_piece_at initial_table 0%nat destination)
        white = false
    ∧ source ≠ destination.
Proof.
  apply (accepted_move_is_of_side_to_move initial_table 0%nat "g1" "f3" white).
  vm_compute. reflexivity.
Defined.

(** ** [chess_view] on every request *)

Lemma newGame_lookup user db :
  (newGame user db).2 = Return tt
  ∧ (∀ location,
       fresh_game db user !! (user, location)
       = if decide (location ∈ (layout_entries initial_board).*1)
         then Some (value_in (layout_entries initial_board) location)
         else None)
  ∧ (∀ other location, other ≠ user →
       fresh_game db user !! (other, location) = db !! (other, location)).
Proof.
  destruct initial_board_well_formed as (Hlen & Hnd & _).
  apply (initialise_lookup user initial_board db Hlen Hnd).
Qed.

Lemma chess_view_unfold user session_turn request db :
  let turn := default white session_turn in
  chess_view user session_turn request db =
  match request with
  | POST data =>
      if post_new_game data || post_reset data then fresh_page db user turn
      else apply_move user (post_source data) (post_destination data) turn db
  | GET =>
      if Z.of_nat (size (objects.filter_user user db)) =? 0
      then fresh_page db user turn
      else (db, Return (turn, page db user turn None false))
  end.
Proof.
  cbv zeta. unfold fresh_page, fresh_game.
  pose proof (proj1 (newGame_lookup user db)) as Hret.
  destruct request as [|data].
  - unfold chess_view. unfold mbind at 1. unfold DB_bind at 1.
    unfold mbind at 1. unfold DB_bind at 1.
    unfold objects.count, query.
    destruct (Z.of_nat _ =? 0); [|done].
    unfold mbind at 1. unfold DB_bind at 1.
    destruct (newGame user db) as [db' r]. simpl in Hret. by subst r.
  - destruct data as [new_game reset source destination]. simpl.
    destruct (new_game || reset) eqn:Hbutton.
    + unfold chess_view. simpl. rewrite Hbutton.
      unfold mbind at 1. unfold DB_bind at 1.
      unfold mbind at 1. unfold DB_bind at 1.
      destruct (newGame user db) as [db' r]. simpl in Hret. by subst r.
    + unfold apply_move, move_request, chess_view. simpl. by rewrite Hbutton.
Qed.

Lemma count_zero_iff user db :
  (Z.of_nat (size (objects.filter_user user db)) =? 0) = true
  ↔ ∀ location, db !! (user, location) = None.
Proof.
  rewrite Z.eqb_eq. unfold objects.filter_user. split.
  - intros Hsize location.
    assert (size (filter (λ row : User * string * string, row.1.1 = user) db)
            = 0%nat) as Hzero by lia.
    apply map_size_empty_iff in Hzero.
    destruct (db !! (user, location)) as [value|] eqn:Hrow; [|done].
    assert (filter (λ row : User * string * string, row.1.1 = user) db
              !! (user, location) = Some value) as Hin
      by (by apply map_lookup_filter_Some).
    by rewrite Hzero in Hin.
  - intros Hnone.
    assert (filter (λ row : User * string * string, row.1.1 = user) db = ∅)
      as ->; [|done].
    apply map_empty. intros [other location].
    apply map_lookup_filter_None. right. intros value Hrow Hu.
    simpl in Hu. subst other. by rewrite Hnone in Hrow.
Qed.

Lemma fresh_game_grid db user :
  board_rows (fresh_game db user) user = standard_grid.
Proof.
  destruct initial_board_well_formed as (Hlen & Hnd & Hgrid).
  unfold fresh_game, newGame. by rewrite initialise_grid.
Qed.

(** The table [chess_view] leaves: the one it found, a fresh game, or the
    one it found with a piece relocated. *)
Lemma chess_view_table user session_turn request db :
  let db' := (chess_view user session_turn request db).1 in
  db' = db ∨ db' = fresh_game db user
  ∨ ∃ source destination piece,
      source ≠ destination
      ∧ db !! (user, source) = Some piece
      ∧ is_Some (Board.PIECE_MAPPING !! piece)
      ∧ db' = moved db user source destination piece.
Proof.
  cbv zeta. rewrite chess_view_unfold.
  destruct request as [|data].
  - case_match; simpl; auto.
  - case_match; simpl; [auto|].
    destruct (apply_move_outcome user (post_source data) (post_destination data)
                (default white session_turn) db)
      as [msg| |message|s d piece message Hform Hsrc [pt Hp] Hv]; simpl; auto.
    right. right. exists s, d, piece.
    split; [by eapply validate_move_distinct|]. by rewrite Hp.
Qed.

Lemma board_rows_ext db1 db2 user :
  (∀ location, location ∈ concat grid_locations →
     db1 !! (user, location) = db2 !! (user, location)) →
  board_rows db1 user = board_rows db2 user.
Proof.
  intros Hsame. rewrite !board_rows_locations.
  assert (Forall (Forall (λ location, location ∈ concat grid_locations))
            grid_locations) as Hgrid by decide_by_computation.
  apply Forall_fmap_ext. eapply Forall_impl; [exact Hgrid|].
  intros row Hrow. apply Forall_fmap_ext. eapply Forall_impl; [exact Hrow|].
  intros location Hin. simpl in Hin. unfold Board.get_piece_at.
  by rewrite Hsame.
Qed.

(** X17.  After [newGame] every row of the user holds the empty marker or
    a piece, and no request makes [chess_view] break this. *)
Theorem known_values_invariant user session_turn request db :
  known_values (fresh_game db user) user
  ∧ (known_values db user →
     known_values (chess_view user session_turn request db).1 user).
Proof.
  assert (known_values (fresh_game db user) user) as Hfresh.
  { intros location value. rewrite (proj1 (proj2 (newGame_lookup user db))).
    case_decide as Hin; [|done]. intros [= <-]. revert location Hin.
    apply Forall_forall. decide_by_computation. }
  split; [done|]. intros Hknown.
  destruct (chess_view_table user session_turn request db)
    as [->|[->|(source & destination & piece & Hne & Hsrc & Hp & ->)]];
    [done|done|].
  intros location value. unfold moved.
  destruct (decide (location = destination)) as [->|Hd].
  { rewrite lookup_insert_eq. intros [= <-]. by right. }
  rewrite lookup_insert_ne by congruence.
  destruct (decide (location = source)) as [->|Hs].
  { rewrite lookup_insert_eq. intros [= <-]. by left. }
  rewrite lookup_insert_ne by congruence.
  rewrite lookup_delete_ne by congruence. apply Hknown.
Qed.

Lemma known_values_invariant_witness :
  known_values
    (chess_view 0%nat (Some white) (move_request "e2" "e4") initial_table).1
    0%nat.
Proof.
  apply (proj2 (known_values_invariant 0%nat (Some white)
                  (move_request "e2" "e4") initial_table)).
  apply (proj1 (known_values_invariant 0%nat None GET ∅)).
Defined.

(** X18.  After [newGame] every square of the grid has a row, and no
    request makes [chess_view] remove one. *)
Theorem complete_grid_invariant user session_turn request db :
  complete_grid (fresh_game db user) user
  ∧ (complete_grid db user →
     complete_grid (chess_view user session_turn request db).1 user).
Proof.
  assert (complete_grid (fresh_game db user) user) as Hfresh.
  { intros location Hin. rewrite (proj1 (proj2 (newGame_lookup user db))).
    rewrite decide_True; [done|]. revert location Hin. apply Forall_forall.
    decide_by_computation. }
  split; [done|]. intros Hcomplete.
  destruct (chess_view_table user session_turn request db)
    as [->|[->|(source & destination & piece & Hne & Hsrc & Hp & ->)]];
    [done|done|].
  intros location Hin. unfold moved.
  destruct (decide (location = destination)) as [->|Hd].
  { by rewrite lookup_insert_eq. }
  rewrite lookup_insert_ne by congruence.
  destruct (decide (location = source)) as [->|Hs].
  { by rewrite lookup_insert_eq. }
  rewrite lookup_insert_ne by congruence.
  rewrite lookup_delete_ne by congruence. by apply Hcomplete.
Qed.

Lemma complete_grid_invariant_witness :
  complete_grid
    (chess_view 0%nat (Some white) (move_request "e2" "e4") initial_table).1
    0%nat.
Proof.
  apply (proj2 (complete_grid_invariant 0%nat (Some white)
                  (move_request "e2" "e4") initial_table)).
  apply (proj1 (complete_grid_invariant 0%nat None GET ∅)).
Defined.

(** X19.  Whatever the request, [chess_view] leaves the rows of other
    users as they are. *)
Theorem other_users_untouched user session_turn request db other location :
  other ≠ user →
  (chess_view user session_turn request db).1 !! (other, location)
  = db !! (other, location).
Proof.
  intros Hother.
  destruct (chess_view_table user session_turn request db)
    as [->|[->|(source & destination & piece & Hne & Hsrc & Hp & ->)]];
    [done| |].
  - by apply newGame_lookup.
  - unfold moved. rewrite !lookup_insert_ne by congruence.
    by rewrite lookup_delete_ne by congruence.
Qed.

Lemma other_users_untouched_witness :
  (chess_view 0%nat None GET (<[(1%nat, "e4") := "&#9817;"]> ∅)).1
    !! (1%nat, "e4")
  = (<[(1%nat, "e4") := "&#9817;"]> ∅ : Table) !! (1%nat, "e4").
Proof.
  apply (other_users_untouched 0%nat None GET
           (<[(1%nat, "e4") := "&#9817;"]> ∅) 1%nat "e4").
  discriminate.
Defined.

(** X20.  [newGame] returns, whatever rows the table holds: the grid of
    the user is then the standard position, the user has no row outside
    the 64 squares of the grid, and the rows of other users are as they
    were. *)
Theorem newGame_rows db user :
  let result := newGame user db in
  result.2 = Return tt
  ∧ board_rows result.1 user = standard_grid
  ∧ (∀ location,
       location ∉ concat grid_locations → result.1 !! (user, location) = None)
  ∧ (∀ other location, other ≠ user →
       result.1 !! (other, location) = db !! (other, location)).
Proof.
  destruct (newGame_standard db user) as (Hret & Hgrid & _ & _ & Hout & Hother).
  cbv zeta. auto.
Qed.

Lemma newGame_rows_witness :
  (newGame 0%nat (<[(0%nat, "E4") := "&#9817;"]> ∅)).1 !! (0%nat, "E4") = None.
Proof.
  apply (proj1 (proj2 (proj2
           (newGame_rows (<[(0%nat, "E4") := "&#9817;"]> ∅) 0%nat)))).
  vm_compute. intros H.
  repeat (apply elem_of_cons in H as [H|H]; [discriminate H|]).
  by apply elem_of_nil in H.
Defined.

(** X21.  [newGame] depends on the rows of other users only: a second
    [newGame] changes nothing, and two tables that agree on the other
    users give the same table. *)
Theorem newGame_idempotent user db :
  newGame user (newGame user db).1 = newGame user db
  ∧ ∀ db0,
      (∀ other location, other ≠ user →
         db0 !! (other, location) = db !! (other, location)) →
      newGame user db0 = newGame user db.
Proof.
  assert (∀ db0,
            (∀ other location, other ≠ user →
               db0 !! (other, location) = db !! (other, location)) →
            newGame user db0 = newGame user db) as Hsame.
  { intros db0 Hothers.
    destruct (newGame_lookup user db) as (Hret & Hin & Hout).
    destruct (newGame_lookup user db0) as (Hret0 & Hin0 & Hout0).
    unfold fresh_game in *.
    destruct (newGame user db) as [db' r], (newGame user db0) as [db0' r0].
    simpl in *. subst r r0. f_equal.
    apply map_eq. intros [other location].
    destruct (decide (other = user)) as [->|Hne].
    - by rewrite Hin, Hin0.
    - rewrite Hout, Hout0 by done. by apply Hothers. }
  split; [|done]. apply Hsame. intros other location Hne.
  by apply newGame_lookup.
Qed.

Lemma newGame_idempotent_witness :
  newGame 0%nat table_e4_d5 = newGame 0%nat ∅.
Proof.
  apply (proj2 (newGame_idempotent 0%nat ∅) table_e4_d5).
  intros other location Hne. unfold table_e4_d5, moved, initial_table.
  rewrite !lookup_insert_ne, !lookup_delete_ne, !lookup_insert_ne,
    !lookup_delete_ne by congruence.
  apply (proj2 (proj2 (newGame_lookup 0%nat ∅))). done.
Defined.

(** X22.  A GET sets up a new game, with white to move, exactly when the
    user has no row; with any row it changes nothing, so a GET after
    [newGame] leaves the board alone. *)
Theorem get_sets_up_board_once user session_turn db :
  let turn := default white session_turn in
  let result := chess_view user session_turn GET db in
  ((∀ location, db !! (user, location) = None) →
   result = (fresh_game db user,
             Return (white, page (fresh_game db user) user turn None false))
   ∧ board_rows result.1 user = standard_grid)
  ∧ (∀ location value, db !! (user, location) = Some value →
       result = (db, Return (turn, page db user turn None false)))
  ∧ (chess_view user (Some white) GET (fresh_game db user)).1
    = fresh_game db user.
Proof.
  cbv zeta. rewrite !chess_view_unfold.
  assert (∀ db0 location value, db0 !! (user, location) = Some value →
            (Z.of_nat (size (objects.filter_user user db0)) =? 0) = false)
    as Hrows.
  { intros db0 location value Hrow. apply not_true_is_false.
    intros Hzero.
    pose proof (proj1 (count_zero_iff user db0) Hzero location) as Hnone.
    by rewrite Hnone in Hrow. }
  split; [|split].
  - intros Hnone. rewrite (proj2 (count_zero_iff user db) Hnone).
    split; [done|]. apply fresh_game_grid.
  - intros location value Hrow. by rewrite (Hrows _ _ _ Hrow).
  - rewrite (Hrows (fresh_game db user) "a1" "&#9814;"); [done|].
    by rewrite (proj1 (proj2 (newGame_lookup user db))).
Qed.

Lemma get_sets_up_board_once_witness :
  chess_view 0%nat None GET ∅
  = (fresh_game ∅ 0%nat,
     Return (white, page (fresh_game ∅ 0%nat) 0%nat white None false))
  ∧ board_rows (chess_view 0%nat None GET ∅).1 0%nat = standard_grid.
Proof.
  apply (proj1 (get_sets_up_board_once 0%nat None ∅)).
  intros location. apply lookup_empty.
Defined.

(** X23.  A POST with the new-game or the reset button sets up the
    standard position with white to move, whatever the session, the table
    and the fields of a move sent along. *)
Theorem new_game_button_resets user session_turn data db :
  post_new_game data || post_reset data = true →
  let result := chess_view user session_turn (POST data) db in
  result
  = (fresh_game db user,
     Return (white,
             page (fresh_game db user) user (default white session_turn)
               None false))
  ∧ board_rows result.1 user = standard_grid.
Proof.
  intros Hbutton. cbv zeta. rewrite chess_view_unfold, Hbutton.
  split; [done|]. apply fresh_game_grid.
Qed.

Lemma new_game_button_resets_witness :
  let data := {| post_new_game := false; post_reset := true;
                 post_source := "e2"; post_destination := "e4" |} in
  chess_view 0%nat (Some black) (POST data) table_e4_d5
  = (fresh_game table_e4_d5 0%nat,
     Return (white, page (fresh_game table_e4_d5 0%nat) 0%nat black None false))
  ∧ board_rows (chess_view 0%nat (Some black) (POST data) table_e4_d5).1 0%nat
    = standard_grid.
Proof.
  apply (new_game_button_resets 0%nat (Some black)
           {| post_new_game := false; post_reset := true;
              post_source := "e2"; post_destination := "e4" |} table_e4_d5).
  reflexivity.
Defined.

(** X24.  The grid of the page is that of the table after the request, 8
    rows of 8 values, while the turn of the page is the one the request
    came in with, also after a move that changed the turn. *)
Theorem page_shows_table_after_request user session_turn request db
    new_turn page_data :
  (chess_view user session_turn request db).2 = Return (new_turn, page_data) →
  board page_data
  = board_rows (chess_view user session_turn request db).1 user
  ∧ page_turn page_data = default white session_turn
  ∧ length (board page_data) = 8%nat
  ∧ Forall (λ row, length row = 8%nat) (board page_data).
Proof.
  rewrite chess_view_unfold.
  assert (∀ db0 turn err form_errors,
            let shown := page db0 user turn err form_errors in
            board shown = board_rows db0 user ∧ page_turn shown = turn
            ∧ length (board shown) = 8%nat
            ∧ Forall (λ row, length row = 8%nat) (board shown)) as Hpage.
  { intros db0 turn err form_errors. cbv zeta.
    split; [done|]. split; [done|]. split; [done|].
    simpl. unfold board_rows. repeat constructor. }
  destruct request as [|data].
  - case_match; simpl; intros [= <- <-]; apply Hpage.
  - case_match; [simpl; intros [= <- <-]; apply Hpage|].
    destruct (apply_move_outcome user (post_source data) (post_destination data)
                (default white session_turn) db)
      as [msg| |message|s d piece message Hform Hsrc Hp Hv]; simpl; [done|..];
      intros [= <- <-]; apply Hpage.
Qed.

Lemma page_shows_table_after_request_witness :
  let shown :=
    page (moved initial_table 0%nat "e2" "e4" "&#9817;") 0%nat white None false in
  board shown
  = board_rows (chess_view 0%nat (Some white) (move_request "e2" "e4")
                  initial_table).1 0%nat
  ∧ page_turn shown = default white (Some white)
  ∧ length (board shown) = 8%nat
  ∧ Forall (λ row, length row = 8%nat) (board shown).
Proof.
  apply (page_shows_table_after_request 0%nat (Some white)
           (move_request "e2" "e4") initial_table black).
  vm_compute. reflexivity.
Defined.

(** X25.  An accepted move to a destination that is no location of the
    grid, such as a square with an uppercase file, takes the piece off the
    grid: the grid afterwards is the old one with the source emptied. *)
Theorem move_off_the_grid_loses_the_piece db user raw_source raw_destination
    source destination turn :
  ChessForm raw_source raw_destination = Return (Some (source, destination)) →
  accepts (apply_move user raw_source raw_destination turn db).2 = true →
  destination ∉ concat grid_locations →
  board_rows (apply_move user raw_source raw_destination turn db).1 user
  = board_rows (<[(user, source) := "&nbsp;"]> db) user.
Proof.
  intros Hform Haccepted Hoff.
  destruct (apply_move_outcome user raw_source raw_destination turn db)
    as [msg| |message|s d piece message Hform' Hsrc Hp Hv]; simpl in *;
    try done.
  rewrite Hform in Hform'. injection Hform' as <- <-.
  apply board_rows_ext. intros location Hin. unfold moved.
  rewrite lookup_insert_ne by (intros [= <-]; done).
  destruct (decide (location = source)) as [->|Hne].
  - by rewrite !lookup_insert_eq.
  - rewrite !lookup_insert_ne by congruence.
    apply lookup_delete_ne. by intros [= <-].
Qed.

Lemma move_off_the_grid_loses_the_piece_witness :
  board_rows (apply_move 0%nat "g1" "F3" white initial_table).1 0%nat
  = board_rows (<[(0%nat, "g1") := "&nbsp;"]> initial_table) 0%nat.
Proof.
  apply (move_off_the_grid_loses_the_piece initial_table 0%nat "g1" "F3"
           "g1" "F3" white).
  - vm_compute. reflexivity.
  - vm_compute. reflexivity.
  - vm_compute. intros H. repeat (apply elem_of_cons in H as [H|H]; [discriminate H|]).
    by apply elem_of_nil in H.
Defined.

(** X26.  [reset_game] returns, writes a row for every square of the grid
    and leaves the user no other row, keeps the rows of other users, and
    changes nothing when run again. *)
Theorem reset_game_replaces_the_users_rows db user :
  let result := Board.reset_game user db in
  result.2 = Return tt
  ∧ (∀ location, location ∈ concat grid_locations →
       is_Some (result.1 !! (user, location)))
  ∧ (∀ location, location ∉ concat grid_locations →
       result.1 !! (user, location) = None)
  ∧ (∀ other location, other ≠ user →
       result.1 !! (other, location) = db !! (other, location))
  ∧ Board.reset_game user result.1 = result.
Proof.
  destruct Board_initial_board_well_formed as (Hlen & Hnd & Hgrid).
  assert (∀ db0, let result := Board.reset_game user db0 in
            result.2 = Return tt
            ∧ (∀ location,
                 result.1 !! (user, location)
                 = if decide (location ∈ (layout_entries Board.initial_board).*1)
                   then Some (value_in (layout_entries Board.initial_board)
                                location)
                   else None)
            ∧ (∀ other location, other ≠ user →
                 result.1 !! (other, location) = db0 !! (other, location)))
    as Hlookup
    by (intros db0; apply (initialise_lookup user Board.initial_board db0 Hlen Hnd)).
  destruct (Hlookup db) as (Hret & Hin & Hother). cbv zeta.
  split; [done|]. split; [|split; [|split; [done|]]].
  - intros location Hloc. rewrite Hin, decide_True; [done|].
    revert location Hloc. apply Forall_forall. decide_by_computation.
  - intros location Hloc. rewrite Hin. apply decide_False. intros Hkey.
    apply Hloc. revert Hkey. clear.
    assert ((layout_entries Board.initial_board).*1 ⊆ concat grid_locations)
      as Hsub by decide_by_computation.
    apply Hsub.
  - destruct (Hlookup (Board.reset_game user db).1) as (Hret' & Hin' & Hother').
    cbv zeta in Hret', Hin', Hother'.
    destruct (Board.reset_game user db) as [db1 r1] eqn:H1. simpl in *.
    destruct (Board.reset_game user db1) as [db2 r2] eqn:H2. simpl in *.
    subst r1 r2. f_equal. apply map_eq. intros [other location].
    destruct (decide (other = user)) as [->|Hne].
    + by rewrite Hin, Hin'.
    + by rewrite Hother'.
Qed.

Lemma reset_game_replaces_the_users_rows_witness :
  (Board.reset_game 0%nat (<[(0%nat, "E4") := "&#9817;"]> ∅)).1 !! (0%nat, "E4")
  = None.
Proof.
  apply (proj1 (proj2 (proj2 (reset_game_replaces_the_users_rows
                                (<[(0%nat, "E4") := "&#9817;"]> ∅) 0%nat)))).
  vm_compute. intros H.
  repeat (apply elem_of_cons in H as [H|H]; [discriminate H|]).
  by apply elem_of_nil in H.
Defined.
